(** * Shift lifecycle and top-workplaces report: a shallow embedding

    Two programs of the repository are embedded here.

    - [ShiftsService] follows the NestJS service ([claim], [cancel]) that
      sits on top of a Prisma table of shifts.  The table is a finite map
      from identifiers to records; a service call is a function from the
      table to a completion (a value or a thrown exception) and the table
      after the call.
    - [TopWorkplaces] follows [scripts/top-workplaces.ts]: the two page
      loops over a remote listing endpoint and the in-memory ranking. *)

From Stdlib Require Import ZArith List Bool Lia Permutation Sorted String.
From stdpp Require Import base option list gmap.
Import ListNotations.

Local Open Scope Z_scope.

(** ** JavaScript values the programs branch on *)

Module Js.

(** [ToBoolean] on a field of type [number | null] holding an integer:
    [null] and [0] are falsy, every other integer is truthy. *)
Definition truthy (v : option Z) : bool :=
  match v with
  | None => false
  | Some n => negb (n =? 0)
  end.

(** [ToBoolean] on a field of type [number]. *)
Definition truthy_num (n : Z) : bool := negb (n =? 0).

(** [ToBoolean] on a value of type [string | undefined], such as an entry
    of [process.env]: [undefined] and the empty string are falsy. *)
Definition truthy_string (v : option string) : bool :=
  match v with
  | None => false
  | Some s => negb (String.eqb s EmptyString)
  end.

End Js.

(** ** The shifts service *)

Module ShiftsService.

(** Modelled from the spec: the Prisma [Shift] model is declared in the
    schema, which is not among the sources.  The record keeps the fields
    the service reads or writes: the identifier, the nullable worker
    assignment and the nullable cancellation timestamp (a [Date], kept
    as its epoch value). *)
Record Shift : Type := mkShift {
  id : Z;
  workerId : option Z;
  cancelledAt : option Z;
}.

(** The exceptions a call can end with.  [NotFoundException] and
    [BadRequestException] are thrown by the service with a message built
    from the shift identifier; [RecordNotFound] is what Prisma's [update]
    raises when no row matches its [where]. *)
Inductive BadRequestReason : Type :=
| AlreadyClaimed
| NotClaimed.

Inductive Exception : Type :=
| NotFoundException (shiftId : Z)
| BadRequestException (shiftId : Z) (why : BadRequestReason)
| RecordNotFound (shiftId : Z).

Inductive Completion (A : Type) : Type :=
| Return (a : A)
| Throw (e : Exception).
Arguments Return {A} a.
Arguments Throw {A} e.

(** A service call: table in, completion and table out. *)
Definition M (A : Type) : Type :=
  gmap Z Shift -> Completion A * gmap Z Shift.

Definition ret {A} (a : A) : M A := fun db => (Return a, db).

Definition throw {A} (e : Exception) : M A := fun db => (Throw e, db).

Definition bind {A B} (m : M A) (k : A -> M B) : M B :=
  fun db =>
    match m db with
    | (Return a, db') => k a db'
    | (Throw e, db') => (Throw e, db')
    end.

Notation "'let*' x ':=' m 'in' k" := (bind m (fun x => k))
  (at level 10, x name, m at level 100, k at level 200).

(** The [data] argument of [prisma.shift.update]: a field that is left
    out is [None]; a field that is given carries its new (nullable)
    value. *)
Record ShiftUpdateInput : Type := mkData {
  data_workerId : option (option Z);
  data_cancelledAt : option (option Z);
}.

Definition apply_data (d : ShiftUpdateInput) (s : Shift) : Shift :=
  {| id := id s;
     workerId := default (workerId s) (data_workerId d);
     cancelledAt := default (cancelledAt s) (data_cancelledAt d) |}.

(** [prisma.shift.findUnique({ where: { id } })]. *)
Definition findUnique (shiftId : Z) : M (option Shift) :=
  fun db => (Return (db !! shiftId), db).

(** [prisma.shift.update({ where: { id }, data })]: the row is rewritten
    and returned; with no such row the call throws. *)
Definition update (shiftId : Z) (d : ShiftUpdateInput) : M Shift :=
  fun db =>
    match db !! shiftId with
    | None => (Throw (RecordNotFound shiftId), db)
    | Some s => let s' := apply_data d s in (Return s', <[shiftId := s']> db)
    end.

(** [ShiftsService.claim]. *)
Definition claim (shiftId worker : Z) : M Shift :=
  let* shift := findUnique shiftId in
  match shift with
  | None => throw (NotFoundException shiftId)
  | Some shift =>
      if Js.truthy (workerId shift)
      then throw (BadRequestException shiftId AlreadyClaimed)
      else update shiftId {| data_workerId := Some (Some worker);
                             data_cancelledAt := Some None |}
  end.

(** [ShiftsService.cancel]; [now] is the value [new Date()] has when the
    call reaches the update. *)
Definition cancel (now : Z) (shiftId : Z) : M Shift :=
  let* shift := findUnique shiftId in
  match shift with
  | None => throw (NotFoundException shiftId)
  | Some shift =>
      if negb (Js.truthy (workerId shift))
      then throw (BadRequestException shiftId NotClaimed)
      else update shiftId {| data_cancelledAt := Some (Some now);
                             data_workerId := Some None |}
  end.

(** The caller's sequence [claim; cancel; claim], each call awaited and
    the first exception ending the sequence. *)
Definition claim_cancel_claim (shiftId w now w2 : Z) : M Shift :=
  let* _ := claim shiftId w in
  let* _ := cancel now shiftId in
  claim shiftId w2.

(** [ShiftsService.getById]. *)
Definition getById (shiftId : Z) : M (option Shift) := findUnique shiftId.

End ShiftsService.

(** ** The top-workplaces script *)

Module TopWorkplaces.

(** *** Records of the script *)

Record Workplace : Type := mkWorkplace {
  wp_id : Z;
  wp_name : string;
  wp_status : Z;
}.

(** [interface Shift].  The interface declares [workplaceId: number];
    the value comes unchecked out of a JSON body, so [null] is kept as a
    possible content of the field (it is falsy, like [0]). *)
Record Shift : Type := mkShift {
  shift_id : Z;
  workplaceId : option Z;
}.

Record WorkplaceWithShifts : Type := mkRow {
  name : string;
  shifts : Z;
}.

(** *** What [axios.get] can give back

    The promise is rejected (no connection, a status outside 2xx) or it
    resolves to a response.  Of the response the script reads
    [response.data.data] and, on a page with items,
    [response.data.links.next]. *)

Inductive DataField (A : Type) : Type :=
| DataArray (items : list A)   (* [Array.isArray] holds *)
| DataOther.                   (* anything else, [undefined] included *)
Arguments DataArray {A} items.
Arguments DataOther {A}.

Inductive LinksField : Type :=
| LinksNullish                 (* [links] is [undefined] or [null] *)
| LinksObject (next : bool).   (* [next] is [ToBoolean(links.next)] *)

Inductive Body (A : Type) : Type :=
| BodyNullish                  (* [response.data] is [undefined] or [null] *)
| BodyObject (data : DataField A) (links : LinksField).
Arguments BodyNullish {A}.
Arguments BodyObject {A} data links.

Inductive AxiosResult (A : Type) : Type :=
| Rejected
| Resolved (body : Body A).
Arguments Rejected {A}.
Arguments Resolved {A} body.

Inductive Endpoint : Type := WorkplacesUrl | ShiftsUrl.

(** The [params] of a request; [shard] is absent on the shifts listing. *)
Record Request : Type := mkRequest {
  url : Endpoint;
  page : Z;
  limit : Z;
  shard : option Z;
}.

(** The remote service, as far as the script can observe it: a state of
    its own and an answer to each request. *)
Record Api (W : Type) : Type := mkApi {
  get_workplaces : W -> Request -> AxiosResult Workplace * W;
  get_shifts : W -> Request -> AxiosResult Shift * W;
}.
Arguments get_workplaces {W} _ _ _.
Arguments get_shifts {W} _ _ _.

(** *** The effects of the script *)

Record State (W : Type) : Type := mkState {
  world : W;
  issued : list Request;       (* requests sent so far, oldest first *)
}.
Arguments mkState {W} _ _.
Arguments world {W} _.
Arguments issued {W} _.

Inductive Outcome (W A : Type) : Type :=
| Value (a : A) (s : State W)      (* the computation produced [a] *)
| Thrown (s : State W)             (* an exception is propagating *)
| Exited (code : Z) (s : State W)  (* [process.exit(code)] was called *)
| OutOfFuel.                       (* the loop budget is used up *)
Arguments Value {W A} a s.
Arguments Thrown {W A} s.
Arguments Exited {W A} code s.
Arguments OutOfFuel {W A}.

Definition M (W A : Type) : Type := State W -> Outcome W A.

Definition ret {W A} (a : A) : M W A := fun s => Value a s.

Definition bind {W A B} (m : M W A) (k : A -> M W B) : M W B :=
  fun s =>
    match m s with
    | Value a s' => k a s'
    | Thrown s' => Thrown s'
    | Exited c s' => Exited c s'
    | OutOfFuel => OutOfFuel
    end.

Notation "'do' x '<-' m ';' k" := (bind m (fun x => k))
  (at level 10, x name, m at level 100, k at level 200).

Definition throw {W A} : M W A := fun s => Thrown s.

Definition process_exit {W A} (code : Z) : M W A := fun s => Exited code s.

Definition diverge {W A} : M W A := fun _ => OutOfFuel.

(** [try { body } catch (error) { handler }]. *)
Definition try_catch {W A} (body handler : M W A) : M W A :=
  fun s =>
    match body s with
    | Thrown s' => handler s'
    | r => r
    end.

(** [await axios.get(url, { params })]: the request is recorded, the
    service answers, a rejection is thrown at the [await]. *)
Definition axios_get {W A}
    (serve : W -> Request -> AxiosResult A * W) (r : Request) : M W (Body A) :=
  fun s =>
    let '(answer, w') := serve (world s) r in
    let s' := mkState w' (issued s ++ [r]) in
    match answer with
    | Rejected => Thrown s'
    | Resolved body => Value body s'
    end.

(** [Array.isArray(response.data.data) ? response.data.data : []]; the
    property access throws a [TypeError] on a nullish [response.data]. *)
Definition data_or_empty {W A} (body : Body A) : M W (list A) :=
  match body with
  | BodyNullish => throw
  | BodyObject (DataArray items) _ => ret items
  | BodyObject DataOther _ => ret []
  end.

(** [!!response.data.links.next]; throws a [TypeError] on nullish
    [links]. *)
Definition links_next {W A} (body : Body A) : M W bool :=
  match body with
  | BodyNullish => throw
  | BodyObject _ LinksNullish => throw
  | BodyObject _ (LinksObject next) => ret next
  end.

(** *** The page loops *)

(** What one pass through the [try] block leaves behind: either the
    [break], or the new values of the loop variables. *)
Inductive Pass (A : Type) : Type :=
| Break
| Continue (all : list A) (hasNextPage : bool) (page : Z).
Arguments Break {A}.
Arguments Continue {A} all hasNextPage page.

Section Script.

Context {W : Type}.
Variable api : Api W.

(** [const limit = 10]. *)
Definition limit10 : Z := 10.

(** The inner [while (hasNextPage)] of [fetchAllWorkplaces]; the
    arguments after [shard_ix] are the variables the loop assigns.  It
    ends with the values of [allWorkplaces] and
    [shardWorkplacesFetched].  [fuel] bounds the number of passes; the
    [catch] block's [console.error] writes to a stream that is not kept
    here, its [process.exit(1)] ends the run. *)
Fixpoint workplaces_pages (fuel : nat) (shard_ix : Z) (page_ix : Z)
    (hasNextPage : bool) (allWorkplaces : list Workplace)
    (shardWorkplacesFetched : bool) : M W (list Workplace * bool) :=
  if negb hasNextPage then ret (allWorkplaces, shardWorkplacesFetched)
  else
    match fuel with
    | O => diverge
    | S fuel' =>
        do pass <-
          try_catch
            (do body <- axios_get (get_workplaces api)
                 {| url := WorkplacesUrl; page := page_ix;
                    limit := limit10; shard := Some shard_ix |};
             do workplaces <- data_or_empty body;
             if (Z.of_nat (length workplaces) =? 0)
             then ret Break
             else
               let allWorkplaces' := allWorkplaces ++ workplaces in
               do next <- links_next body;
               ret (Continue allWorkplaces' next (page_ix + 1)))
            (process_exit 1);
        match pass with
        | Break => ret (allWorkplaces, shardWorkplacesFetched)
        | Continue allWorkplaces' hasNextPage' page' =>
            workplaces_pages fuel' shard_ix page' hasNextPage'
              allWorkplaces' true
        end
    end.

(** The outer [while (true)] of [fetchAllWorkplaces]. *)
Fixpoint workplaces_shards (fuel pageFuel : nat) (shard_ix : Z)
    (allWorkplaces : list Workplace) : M W (list Workplace) :=
  match fuel with
  | O => diverge
  | S fuel' =>
      do r <- workplaces_pages pageFuel shard_ix 1 true allWorkplaces false;
      let allWorkplaces' := fst r in
      let shardWorkplacesFetched := snd r in
      if negb shardWorkplacesFetched
      then ret allWorkplaces'
      else workplaces_shards fuel' pageFuel (shard_ix + 1) allWorkplaces'
  end.

Definition fetchAllWorkplaces (fuel : nat) : M W (list Workplace) :=
  workplaces_shards fuel fuel 0 [].

(** The [while (hasNextPage)] of [fetchAllShifts]. *)
Fixpoint shifts_pages (fuel : nat) (page_ix : Z) (hasNextPage : bool)
    (allShifts : list Shift) : M W (list Shift) :=
  if negb hasNextPage then ret allShifts
  else
    match fuel with
    | O => diverge
    | S fuel' =>
        do pass <-
          try_catch
            (do body <- axios_get (get_shifts api)
                 {| url := ShiftsUrl; page := page_ix;
                    limit := limit10; shard := None |};
             do shifts <- data_or_empty body;
             if (Z.of_nat (length shifts) =? 0)
             then ret Break
             else
               let allShifts' := allShifts ++ shifts in
               do next <- links_next body;
               ret (Continue allShifts' next (page_ix + 1)))
            (process_exit 1);
        match pass with
        | Break => ret allShifts
        | Continue allShifts' hasNextPage' page' =>
            shifts_pages fuel' page' hasNextPage' allShifts'
        end
    end.

Definition fetchAllShifts (fuel : nat) : M W (list Shift) :=
  shifts_pages fuel 1 true [].

End Script.

(** *** The ranking *)

(** [a || 0] on an entry of [shiftCounts]: a missing entry is
    [undefined]. *)
Definition or_zero (v : option Z) : Z :=
  match v with
  | Some n => if Js.truthy_num n then n else 0
  | None => 0
  end.

(** [workplaces.filter(wp => wp.status === 0)]. *)
Definition activeWorkplaces (workplaces : list Workplace) : list Workplace :=
  List.filter (fun wp => wp_status wp =? 0) workplaces.

(** The body of the [forEach] over the shifts. *)
Definition count_shift (shiftCounts : gmap Z Z) (shift : Shift) : gmap Z Z :=
  if Js.truthy (workplaceId shift)
  then
    match workplaceId shift with
    | Some k => <[k := or_zero (shiftCounts !! k) + 1]> shiftCounts
    | None => shiftCounts
    end
  else shiftCounts.

Definition shiftCounts (shifts : list Shift) : gmap Z Z :=
  fold_left count_shift shifts ∅.

(** [activeWorkplaces.map(wp => ({ name, shifts }))]. *)
Definition workplacesWithShifts (workplaces : list Workplace)
    (shifts : list Shift) : list WorkplaceWithShifts :=
  map (fun wp => {| name := wp_name wp;
                    shifts := or_zero (shiftCounts shifts !! wp_id wp) |})
      (activeWorkplaces workplaces).

(** The comparator [(a, b) => b.shifts - a.shifts]. *)
Definition by_shifts_desc (a b : WorkplaceWithShifts) : Z :=
  shifts b - shifts a.

(** [Array.prototype.sort(comparefn)].  The language fixes the result
    for a consistent comparator: the elements in comparator order,
    elements that compare equal in their original order.  Insertion from
    the right computes that list. *)
Fixpoint insert_sorted {A} (comparefn : A -> A -> Z) (x : A) (l : list A)
    : list A :=
  match l with
  | [] => [x]
  | y :: l' =>
      if comparefn x y <=? 0 then x :: y :: l'
      else y :: insert_sorted comparefn x l'
  end.

Definition array_sort {A} (comparefn : A -> A -> Z) (l : list A) : list A :=
  fold_right (insert_sorted comparefn) [] l.

(** [Array.prototype.slice(0, n)]. *)
Definition slice0 {A} (n : nat) (l : list A) : list A := firstn n l.

(** Lines 125-145 of [getTopWorkplaces], from the two fetched arrays to
    the returned one. *)
Definition rankWorkplaces (workplaces : list Workplace) (shifts : list Shift)
    : list WorkplaceWithShifts :=
  slice0 3 (array_sort by_shifts_desc (workplacesWithShifts workplaces shifts)).

Definition getTopWorkplaces {W} (api : Api W) (fuel : nat)
    : M W (list WorkplaceWithShifts) :=
  do workplaces <- fetchAllWorkplaces api fuel;
  do shifts <- fetchAllShifts api fuel;
  ret (rankWorkplaces workplaces shifts).

(** [main]: the array handed to [JSON.stringify] and [console.log] is the
    value of the run; what is written to the console is not kept. *)
Definition main {W} (api : Api W) (fuel : nat)
    : M W (list WorkplaceWithShifts) :=
  try_catch
    (do topWorkplaces <- getTopWorkplaces api fuel;
     ret topWorkplaces)
    (process_exit 1).

(** The module body: the guard on [process.env.API_BASE_URL], then the
    call of [main]. *)
Definition script {W} (API_BASE_URL : option string) (api : Api W)
    (fuel : nat) : M W (list WorkplaceWithShifts) :=
  if negb (Js.truthy_string API_BASE_URL) then process_exit 1
  else main api fuel.

End TopWorkplaces.

(** ** The vocabulary of the specification

    These definitions follow the words of the specification, not the
    code: a page with its items and its next-link indicator, the first
    page at which a traversal is said to stop, the exchanges a traversal
    is expected to have with the service, and the number of shifts that
    reference a workplace. *)

Module Specification.

Import TopWorkplaces.

Record Page (A : Type) : Type := mkPage {
  items : list A;
  hasNext : bool;
}.
Arguments mkPage {A} _ _.
Arguments items {A} _.
Arguments hasNext {A} _.

(** The well-formed response that carries a page. *)
Definition response {A} (p : Page A) : AxiosResult A :=
  Resolved (BodyObject (DataArray (items p)) (LinksObject (hasNext p))).

Definition is_empty {A} (p : Page A) : bool :=
  match items p with
  | [] => true
  | _ :: _ => false
  end.

(** "the next-link indicator is false or the page is empty". *)
Definition stops {A} (p : Page A) : bool := negb (hasNext p) || is_empty p.

(** "every page up to and including the first page" that stops. *)
Fixpoint upto_first_stop {A} (pages : list (Page A)) : list (Page A) :=
  match pages with
  | [] => []
  | p :: rest => if stops p then [p] else p :: upto_first_stop rest
  end.

(** The pages of one shard as a traversal sees them: at least one page,
    and the only page that stops is the last one. *)
Fixpoint ends_at_first_stop {A} (pages : list (Page A)) : bool :=
  match pages with
  | [] => false
  | [p] => stops p
  | p :: rest => negb (stops p) && ends_at_first_stop rest
  end.

(** A shard whose first page has items. *)
Definition productive {A} (pages : list (Page A)) : bool :=
  match pages with
  | [] => false
  | p :: _ => negb (is_empty p)
  end.

(** A shard the outer loop goes past. *)
Definition shard_ok {A} (pages : list (Page A)) : bool :=
  ends_at_first_stop pages && productive pages.

Definition all_items {A} (pages : list (Page A)) : list A :=
  concat (map items pages).

(** The answers that end a traversal by an error: a rejected promise, a
    body that is not an object, a page with items but without a links
    object. *)
Definition fatal {A} (a : AxiosResult A) : bool :=
  match a with
  | Rejected => true
  | Resolved BodyNullish => true
  | Resolved (BodyObject (DataArray (_ :: _)) LinksNullish) => true
  | Resolved (BodyObject _ _) => false
  end.

(** A response that does not follow the listing contract: the body is
    no object, the data field is no array, or the links object is
    missing. *)
Definition malformed {A} (a : AxiosResult A) : bool :=
  match a with
  | Rejected => false
  | Resolved BodyNullish => true
  | Resolved (BodyObject DataOther _) => true
  | Resolved (BodyObject _ LinksNullish) => true
  | Resolved (BodyObject (DataArray _) (LinksObject _)) => false
  end.

Definition shifts_request (p : Z) : Request :=
  {| url := ShiftsUrl; page := p; limit := 10; shard := None |}.

Definition workplaces_request (sh p : Z) : Request :=
  {| url := WorkplacesUrl; page := p; limit := 10; shard := Some sh |}.

(** The page indices [1, 2, ..., n]. *)
Definition page_indices (n : nat) : list Z := map Z.of_nat (seq 1 n).

(** One request and its answer. *)
Definition Exchange (A : Type) : Type := (Request * AxiosResult A)%type.

(** The service, started in [w], answers the requests of the script in
    this order with the answers of the script, and is left in [w']. *)
Fixpoint serves {W A} (serve : W -> Request -> AxiosResult A * W)
    (w : W) (script : list (Exchange A)) (w' : W) : Prop :=
  match script with
  | [] => w' = w
  | (r, a) :: rest =>
      exists w1, serve w r = (a, w1) /\ serves serve w1 rest w'
  end.

(** The pages of one listing, asked for one after the other from page
    index [first] on. *)
Fixpoint exchanges {A} (mk : Z -> Request) (first : Z)
    (pages : list (Page A)) : list (Exchange A) :=
  match pages with
  | [] => []
  | p :: rest => (mk first, response p) :: exchanges mk (first + 1) rest
  end.

(** Shard after shard, from shard index [sh] on, each from page 1. *)
Fixpoint shard_exchanges (sh : Z) (shards : list (list (Page Workplace)))
    : list (Exchange Workplace) :=
  match shards with
  | [] => []
  | pages :: rest =>
      exchanges (workplaces_request sh) 1 pages ++ shard_exchanges (sh + 1) rest
  end.

(** Shard after shard, pages [1..n] of each. *)
Fixpoint shard_requests (sh : Z) (sizes : list nat) : list Request :=
  match sizes with
  | [] => []
  | n :: rest =>
      map (workplaces_request sh) (page_indices n) ++ shard_requests (sh + 1) rest
  end.

(** "the number of shift records referencing that workplace's
    identifier", a null or zero reference not counting. *)
Definition references (k : Z) (s : Shift) : bool :=
  match workplaceId s with
  | Some j => negb (j =? 0) && (j =? k)
  | None => false
  end.

Definition count_references (k : Z) (ss : list Shift) : Z :=
  Z.of_nat (length (List.filter (references k) ss)).

(** The shift count of a workplace, and the row that reports it. *)
Definition shift_count (ss : list Shift) (wp : Workplace) : Z :=
  count_references (wp_id wp) ss.

Definition report (ss : list Shift) (wp : Workplace) : WorkplaceWithShifts :=
  {| name := wp_name wp; shifts := shift_count ss wp |}.

(** The elements of a given key, and "descending by key". *)
Definition has_key {A} (key : A -> Z) (c : Z) (a : A) : bool := key a =? c.

Definition desc {A} (key : A -> Z) (a b : A) : Prop := key b <= key a.

(** "descending by shift count", on the workplaces themselves. *)
Definition by_count_desc (ss : list Shift) (a b : Workplace) : Z :=
  shift_count ss b - shift_count ss a.

(** The workplaces the result reports: the first three of the active
    ones in descending order of shift count. *)
Definition ranked (ss : list Shift) (workplaces : list Workplace)
    : list Workplace :=
  firstn 3 (array_sort (by_count_desc ss) (activeWorkplaces workplaces)).

End Specification.

(** ** Services to run the script against *)

Module Scenarios.

Import TopWorkplaces Specification.

(** A service that hands out prepared answers in turn, one queue for each
    listing, whatever is asked for; a used-up queue rejects. *)
Definition Queues : Type :=
  (list (AxiosResult Workplace) * list (AxiosResult Shift))%type.

Definition queued : Api Queues :=
  {| get_workplaces := fun w _ =>
       match fst w with
       | a :: rest => (a, (rest, snd w))
       | [] => (Rejected, w)
       end;
     get_shifts := fun w _ =>
       match snd w with
       | a :: rest => (a, (fst w, rest))
       | [] => (Rejected, w)
       end |}.

(** A service without state: the answer is a function of the shard and
    page asked for. *)
Definition stateless (workplaces : Z -> Z -> AxiosResult Workplace)
    (shifts : Z -> AxiosResult Shift) : Api unit :=
  {| get_workplaces := fun w r => (workplaces (default 0 (shard r)) (page r), w);
     get_shifts := fun w r => (shifts (page r), w) |}.

Definition wpA : Workplace := mkWorkplace 1 "A"%string 0.
Definition wpB : Workplace := mkWorkplace 2 "B"%string 1.
Definition wpC : Workplace := mkWorkplace 3 "C"%string 0.
Definition wpD : Workplace := mkWorkplace 4 "D"%string 0.

(** Shard 0 has items on pages 1 and 2 and an empty page 3, shard 1 is
    empty, shard 2 has items again. *)
Definition gapped (sh pg : Z) : AxiosResult Workplace :=
  if sh =? 0 then
    if pg =? 1 then response (mkPage [wpA; wpB] true)
    else if pg =? 2 then response (mkPage [wpC] true)
    else response (mkPage [] true)
  else if sh =? 2 then response (mkPage [wpD] false)
  else response (mkPage [] false).

Definition shifts_of (k : Z) (ids : list Z) : list Shift :=
  map (fun i => mkShift i (Some k)) ids.

(** Two pages of shifts: ten items and a next link, three items and
    none. *)
Definition two_pages : list (Page Shift) :=
  [ mkPage (shifts_of 1 [1; 2; 3; 4; 5; 6; 7; 8; 9; 10]) true;
    mkPage (shifts_of 3 [11; 12; 13]) false ].

(** A first page with a next link, then a body whose data field is not an
    array. *)
Definition not_an_array : list (AxiosResult Shift) :=
  [ response (mkPage (shifts_of 1 [1; 2]) true);
    Resolved (BodyObject DataOther LinksNullish) ].

(** Page 1 of the shifts is fine and has a next link, page 2 is
    rejected; shard 0 of the workplaces is one page, the first page of
    shard 1 is rejected. *)
Definition failing : Api unit :=
  stateless
    (fun sh pg => if sh =? 0 then response (mkPage [wpA] false) else Rejected)
    (fun pg => if pg =? 1 then response (mkPage (shifts_of 1 [1; 2]) true)
               else Rejected).

(** Every page of either listing has an item and a next link. *)
Definition endless : Api unit :=
  stateless (fun _ _ => response (mkPage [wpA] true))
            (fun _ => response (mkPage (shifts_of 1 [1]) true)).

(** One shard with three workplaces and then an empty shard; one page of
    shifts. *)
Definition report_run : Queues :=
  ([ response (mkPage [wpA; wpB; wpC] false); response (mkPage [] false) ],
   [ response (mkPage (shifts_of 1 [1; 2] ++ shifts_of 3 [3]) false) ]).

(** One shard with a workplace, then a body whose data field is not an
    array. *)
Definition no_array_shard : list (AxiosResult Workplace) :=
  [ response (mkPage [wpA] false);
    Resolved (BodyObject DataOther LinksNullish) ].

End Scenarios.

(** ** What is observed of a table of shifts and of a run of the script *)

Module ShiftsTable.

Import ShiftsService.

(** Every row is stored under its own identifier. *)
Definition keyed (db : gmap Z Shift) : Prop :=
  map_Forall (fun k s => id s = k) db.

(** A row that counts as claimed carries no cancellation timestamp. *)
Definition claimed_is_live (db : gmap Z Shift) : Prop :=
  map_Forall (fun _ s => Js.truthy (workerId s) = true -> cancelledAt s = None) db.

(** The call returned (it did not throw). *)
Definition returned {A} (r : Completion A * gmap Z Shift) : bool :=
  match fst r with
  | Return _ => true
  | Throw _ => false
  end.

(** Two calls one after the other, the second only when the first
    returned. *)
Definition and_then {A B} (m : M A) (k : M B) : M B :=
  bind m (fun _ => k).

End ShiftsTable.

Module Observations.

Import TopWorkplaces Specification.


(** The state a run ends in, when it ends. *)
Definition final_state {W A} (o : Outcome W A) : option (State W) :=
  match o with
  | Value _ s => Some s
  | Thrown s => Some s
  | Exited _ s => Some s
  | OutOfFuel => None
  end.

(** An answer from which the loops read no items: an empty array or a
    data field that is no array, whatever the links field. *)
Definition no_items {A} (a : AxiosResult A) : bool :=
  match a with
  | Resolved (BodyObject (DataArray []) _) => true
  | Resolved (BodyObject DataOther _) => true
  | _ => false
  end.

(** A shift that refers to one of the active workplaces. *)
Definition relevant (workplaces : list Workplace) (s : Shift) : bool :=
  existsb (fun wp => references (wp_id wp) s) (activeWorkplaces workplaces).

(** A shift the [forEach] counts. *)
Definition counted (s : Shift) : bool := Js.truthy (workplaceId s).

(** The sum of the counters of a map. *)
Definition total (m : gmap Z Z) : Z := map_fold (fun _ v acc => v + acc) 0 m.

End Observations.

(** ** Theorems on the shifts service *)

Module ShiftsLifecycle.

Import ShiftsService.

(** The two guards read the worker field through [ToBoolean]. *)
Lemma truthy_spec (v : option Z) :
  Js.truthy v = true <-> exists n, v = Some n /\ n <> 0.
Proof.
  destruct v as [n|]; simpl.
  - rewrite negb_true_iff, Z.eqb_neq. split.
    + intros Hn. exists n. split; [reflexivity | exact Hn].
    + intros (m & Hm & Hne). congruence.
  - split; [discriminate | intros (m & Hm & _); discriminate].
Qed.

Lemma claim_found_claimed db shiftId w s :
  db !! shiftId = Some s ->
  Js.truthy (workerId s) = true ->
  claim shiftId w db = (Throw (BadRequestException shiftId AlreadyClaimed), db).
Proof.
  intros Hs Ht. unfold claim, bind, findUnique, throw.
  cbv beta iota. rewrite Hs. cbv beta iota. rewrite Ht. reflexivity.
Qed.

Lemma claim_found_free db shiftId w s :
  db !! shiftId = Some s ->
  Js.truthy (workerId s) = false ->
  claim shiftId w db =
    (Return (mkShift (id s) (Some w) None),
     <[shiftId := mkShift (id s) (Some w) None]> db).
Proof.
  intros Hs Ht. unfold claim, bind, findUnique, update.
  cbv beta iota. rewrite Hs. cbv beta iota. rewrite Ht, Hs. reflexivity.
Qed.

Lemma cancel_found_free db now shiftId s :
  db !! shiftId = Some s ->
  Js.truthy (workerId s) = false ->
  cancel now shiftId db = (Throw (BadRequestException shiftId NotClaimed), db).
Proof.
  intros Hs Ht. unfold cancel, bind, findUnique, throw.
  cbv beta iota. rewrite Hs. cbv beta iota. rewrite Ht. reflexivity.
Qed.

Lemma cancel_found_claimed db now shiftId s :
  db !! shiftId = Some s ->
  Js.truthy (workerId s) = true ->
  cancel now shiftId db =
    (Return (mkShift (id s) None (Some now)),
     <[shiftId := mkShift (id s) None (Some now)]> db).
Proof.
  intros Hs Ht. unfold cancel, bind, findUnique, update.
  cbv beta iota. rewrite Hs. cbv beta iota. rewrite Ht.
  cbn [negb]. cbv beta iota. rewrite Hs. reflexivity.
Qed.

(** C3, as the specification words it, does not hold: a stored shift
    whose worker assignment is the identifier 0 has a worker assignment,
    and [claim] on it succeeds and rewrites the row. *)
Lemma claim_on_assigned_not_always_rejected :
  ~ (forall (db : gmap Z Shift) (shiftId w : Z) (s : Shift),
       db !! shiftId = Some s ->
       workerId s <> None ->
       claim shiftId w db =
         (Throw (BadRequestException shiftId AlreadyClaimed), db)).
Proof.
  intros H.
  specialize (H {[ 1 := mkShift 1 (Some 0) None ]} 1 5 (mkShift 1 (Some 0) None)).
  rewrite (claim_found_free _ 1 5 (mkShift 1 (Some 0) None)) in H.
  - assert (Hne : Some 0 <> (None : option Z)) by discriminate.
    specialize (H (lookup_singleton_eq _ _) Hne). discriminate H.
  - apply lookup_singleton_eq.
  - reflexivity.
Qed.

(** C3, amended: for every stored shift whose worker assignment is
    present and not 0, [claim] throws the bad-request exception
    ("already claimed") and leaves the table as it was. *)
Theorem claim_on_claimed_rejected
    (db : gmap Z Shift) (shiftId w assigned : Z) (s : Shift) :
  db !! shiftId = Some s ->
  workerId s = Some assigned ->
  assigned <> 0 ->
  claim shiftId w db = (Throw (BadRequestException shiftId AlreadyClaimed), db).
Proof.
  intros Hs Hw Hne. apply (claim_found_claimed db shiftId w s Hs).
  apply truthy_spec. exists assigned. split; assumption.
Qed.

Lemma claim_on_claimed_rejected_witness :
  let db : gmap Z Shift := {[ 7 := mkShift 7 (Some 3) None ]} in
  claim 7 4 db = (Throw (BadRequestException 7 AlreadyClaimed), db).
Proof.
  intros db.
  apply (claim_on_claimed_rejected db 7 4 3 (mkShift 7 (Some 3) None)).
  - apply lookup_singleton_eq.
  - reflexivity.
  - lia.
Defined.

(** C4: for every stored shift with no worker assignment, [cancel]
    throws the bad-request exception ("not claimed") and leaves the
    table as it was. *)
Theorem cancel_on_unclaimed_rejected
    (db : gmap Z Shift) (now shiftId : Z) (s : Shift) :
  db !! shiftId = Some s ->
  workerId s = None ->
  cancel now shiftId db = (Throw (BadRequestException shiftId NotClaimed), db).
Proof.
  intros Hs Hw. apply (cancel_found_free db now shiftId s Hs).
  rewrite Hw. reflexivity.
Qed.

Lemma cancel_on_unclaimed_rejected_witness :
  let db : gmap Z Shift := {[ 7 := mkShift 7 None (Some 1000) ]} in
  cancel 2000 7 db = (Throw (BadRequestException 7 NotClaimed), db).
Proof.
  intros db.
  apply (cancel_on_unclaimed_rejected db 2000 7 (mkShift 7 None (Some 1000))).
  - apply lookup_singleton_eq.
  - reflexivity.
Defined.

(** C6, as the specification words it, does not hold for every worker
    identifier: after [claim(id, 0)] the row holds the falsy assignment
    0, and the [cancel] that follows is rejected. *)
Lemma claim_cancel_claim_fails_for_worker_zero :
  ~ (forall (db : gmap Z Shift) (shiftId w now w2 : Z) (s : Shift),
       db !! shiftId = Some s ->
       workerId s = None ->
       exists r db',
         claim_cancel_claim shiftId w now w2 db = (Return r, db') /\
         db' !! shiftId = Some r /\
         workerId r = Some w2 /\ cancelledAt r = None).
Proof.
  intros H.
  destruct (H {[ 1 := mkShift 1 None None ]} 1 0 2000 5 (mkShift 1 None None))
    as (r & db' & Hrun & _).
  - apply lookup_singleton_eq.
  - reflexivity.
  - vm_compute in Hrun. discriminate Hrun.
Qed.

(** C6, amended: for every stored shift with no worker assignment, every
    worker identifier [w] other than 0 and every [w2], the sequence
    [claim(id, w)], [cancel(id)], [claim(id, w2)] succeeds; the record
    it returns is the stored one, its worker assignment is [w2] and its
    cancellation timestamp is null. *)
Theorem claim_cancel_claim_roundtrip
    (db : gmap Z Shift) (shiftId w now w2 : Z) (s : Shift) :
  db !! shiftId = Some s ->
  workerId s = None ->
  w <> 0 ->
  exists r db',
    claim_cancel_claim shiftId w now w2 db = (Return r, db') /\
    db' !! shiftId = Some r /\
    workerId r = Some w2 /\ cancelledAt r = None.
Proof.
  intros Hs Hw Hne.
  exists (mkShift (id s) (Some w2) None).
  exists (<[shiftId := mkShift (id s) (Some w2) None]> db).
  split; [| split; [apply lookup_insert_eq | split; reflexivity]].
  unfold claim_cancel_claim, bind.
  rewrite (claim_found_free db shiftId w s Hs) by (rewrite Hw; reflexivity).
  rewrite (cancel_found_claimed _ now shiftId (mkShift (id s) (Some w) None))
    by (try apply lookup_insert_eq; simpl; apply negb_true_iff, Z.eqb_neq, Hne).
  rewrite (claim_found_free _ shiftId w2 (mkShift (id s) None (Some now)))
    by (try apply lookup_insert_eq; reflexivity).
  simpl. rewrite !insert_insert_eq. reflexivity.
Qed.

Lemma claim_cancel_claim_roundtrip_witness :
  exists r db',
    claim_cancel_claim 7 3 2000 4 {[ 7 := mkShift 7 None None ]} = (Return r, db') /\
    db' !! 7 = Some r /\
    workerId r = Some 4 /\ cancelledAt r = None.
Proof.
  apply (claim_cancel_claim_roundtrip _ 7 3 2000 4 (mkShift 7 None None)).
  - apply lookup_singleton_eq.
  - reflexivity.
  - lia.
Defined.

(** C10: both guards test the truthiness of the worker field.  On a
    stored shift whose worker assignment is 0, [claim] with any worker
    succeeds and overwrites the assignment, and [cancel] is rejected as
    not claimed; and [claim] with worker 0 on a shift without assignment
    succeeds and stores the assignment 0. *)
Theorem zero_worker_is_unclaimed
    (db : gmap Z Shift) (now shiftId w : Z) (s : Shift) :
  db !! shiftId = Some s ->
  (workerId s = Some 0 ->
     claim shiftId w db =
       (Return (mkShift (id s) (Some w) None),
        <[shiftId := mkShift (id s) (Some w) None]> db) /\
     cancel now shiftId db =
       (Throw (BadRequestException shiftId NotClaimed), db)) /\
  (workerId s = None ->
     claim shiftId 0 db =
       (Return (mkShift (id s) (Some 0) None),
        <[shiftId := mkShift (id s) (Some 0) None]> db)).
Proof.
  intros Hs. split.
  - intros Hw. split.
    + apply (claim_found_free db shiftId w s Hs). rewrite Hw. reflexivity.
    + apply (cancel_found_free db now shiftId s Hs). rewrite Hw. reflexivity.
  - intros Hw.
    apply (claim_found_free db shiftId 0 s Hs). rewrite Hw. reflexivity.
Qed.

Lemma zero_worker_is_unclaimed_witness :
  (let db : gmap Z Shift := {[ 7 := mkShift 7 (Some 0) None ]} in
   claim 7 4 db =
     (Return (mkShift 7 (Some 4) None), <[7 := mkShift 7 (Some 4) None]> db) /\
   cancel 2000 7 db = (Throw (BadRequestException 7 NotClaimed), db)) /\
  (let db : gmap Z Shift := {[ 8 := mkShift 8 None None ]} in
   claim 8 0 db =
     (Return (mkShift 8 (Some 0) None), <[8 := mkShift 8 (Some 0) None]> db)).
Proof.
  split; intros db.
  - apply (zero_worker_is_unclaimed db 2000 7 4 (mkShift 7 (Some 0) None)).
    + apply lookup_singleton_eq.
    + reflexivity.
  - apply (zero_worker_is_unclaimed db 2000 8 4 (mkShift 8 None None)).
    + apply lookup_singleton_eq.
    + reflexivity.
Defined.

End ShiftsLifecycle.

(** ** Theorems on the page loops *)

Module Traversal.

Import TopWorkplaces Specification.

(** *** The vocabulary *)

Lemma stops_false {A} (p : Page A) :
  stops p = false -> hasNext p = true /\ exists x l, items p = x :: l.
Proof.
  unfold stops, is_empty. destruct p as [[|x l] [|]]; simpl; try discriminate.
  intros _. split; [reflexivity | exists x, l; reflexivity].
Qed.

Lemma stops_true {A} (p : Page A) :
  stops p = true ->
  items p = [] \/ (hasNext p = false /\ exists x l, items p = x :: l).
Proof.
  unfold stops, is_empty. destruct p as [[|x l] [|]]; simpl; try discriminate;
    intros _; [left | left | right]; try reflexivity.
  split; [reflexivity | exists x, l; reflexivity].
Qed.

Lemma fatal_cases {A} (a : AxiosResult A) :
  fatal a = true ->
  a = Rejected \/ a = Resolved BodyNullish \/
  exists x l, a = Resolved (BodyObject (DataArray (x :: l)) LinksNullish).
Proof.
  destruct a as [|[|[[|x l]|] [|next]]]; simpl; try discriminate; intros _.
  - left. reflexivity.
  - right. left. reflexivity.
  - right. right. exists x, l. reflexivity.
Qed.

Lemma all_items_cons {A} (p : Page A) (rest : list (Page A)) :
  all_items (p :: rest) = items p ++ all_items rest.
Proof. reflexivity. Qed.

Lemma all_items_app {A} (l1 l2 : list (Page A)) :
  all_items (l1 ++ l2) = all_items l1 ++ all_items l2.
Proof. unfold all_items. rewrite map_app, concat_app. reflexivity. Qed.

Lemma ends_at_first_stop_cons {A} (p : Page A) (rest : list (Page A)) :
  ends_at_first_stop (p :: rest) = true ->
  (stops p = true /\ rest = []) \/
  (stops p = false /\ ends_at_first_stop rest = true).
Proof.
  destruct rest as [|q rest]; cbn [ends_at_first_stop].
  - intros H. left. split; [exact H | reflexivity].
  - intros H. apply andb_true_iff in H as [Hp Hr].
    right. split; [apply negb_true_iff, Hp | exact Hr].
Qed.

Lemma upto_first_stop_ends {A} (pages : list (Page A)) :
  existsb stops pages = true ->
  ends_at_first_stop (upto_first_stop pages) = true.
Proof.
  induction pages as [|p rest IH]; cbn [existsb upto_first_stop].
  - discriminate.
  - destruct (stops p) eqn:Hp; cbn [orb].
    + intros _. cbn. exact Hp.
    + intros H. specialize (IH H).
      destruct (upto_first_stop rest) as [|q tl] eqn:Hu.
      * discriminate IH.
      * cbn [ends_at_first_stop]. rewrite Hp. exact IH.
Qed.

Lemma map_fst_exchanges {A} (mk : Z -> Request) (k : nat)
    (pages : list (Page A)) :
  map fst (exchanges mk (Z.of_nat k) pages) =
  map mk (map Z.of_nat (seq k (length pages))).
Proof.
  revert k. induction pages as [|p rest IH]; intros k; cbn.
  - reflexivity.
  - f_equal. replace (Z.of_nat k + 1) with (Z.of_nat (S k)) by lia.
    apply IH.
Qed.

Lemma map_fst_shard_exchanges (sh : Z) (shards : list (list (Page Workplace))) :
  map fst (shard_exchanges sh shards) = shard_requests sh (map length shards).
Proof.
  revert sh. induction shards as [|pages rest IH]; intros sh; cbn.
  - reflexivity.
  - rewrite map_app, IH. f_equal.
    apply (map_fst_exchanges (workplaces_request sh) 1 pages).
Qed.

Lemma shard_requests_bounds (sh : Z) (sizes : list nat) :
  Forall (fun r => exists k, shard r = Some k /\
                             sh <= k < sh + Z.of_nat (length sizes))
         (shard_requests sh sizes).
Proof.
  revert sh. induction sizes as [|n rest IH]; intros sh; cbn [shard_requests].
  - constructor.
  - apply List.Forall_app. split.
    + apply List.Forall_forall. intros r Hr.
      apply List.in_map_iff in Hr as (p & <- & _).
      exists sh. split; [reflexivity |]. cbn [length]. lia.
    + eapply List.Forall_impl; [| apply IH].
      intros r (k & Hk & Hb). exists k. split; [exact Hk |]. cbn [length]. lia.
Qed.

Lemma serves_app {W A} (serve : W -> Request -> AxiosResult A * W)
    (s1 s2 : list (Exchange A)) (w w' : W) :
  serves serve w (s1 ++ s2) w' <->
  exists w1, serves serve w s1 w1 /\ serves serve w1 s2 w'.
Proof.
  revert w. induction s1 as [|[r a] s1 IH]; intros w; simpl.
  - split.
    + intros H. exists w. split; [reflexivity | exact H].
    + intros (w1 & -> & H). exact H.
  - split.
    + intros (w1 & Hr & H). apply IH in H as (w2 & H1 & H2).
      exists w2. split; [exists w1; split; assumption | exact H2].
    + intros (w2 & (w1 & Hr & H1) & H2).
      exists w1. split; [exact Hr | apply IH; exists w2; split; assumption].
Qed.

(** *** One pass through a page loop *)

Ltac enter_pass Hget :=
  cbn [workplaces_pages shifts_pages negb];
  unfold bind at 1; unfold try_catch, bind at 1, axios_get;
  cbn [world issued];
  unfold workplaces_request, shifts_request, limit10 in *;
  rewrite Hget.

Section Passes.

Context {W : Type}.
Variable api : Api W.

Lemma workplaces_pass_on fuel sh pg acc fetched w log p w1 :
  get_workplaces api w (workplaces_request sh pg) = (response p, w1) ->
  stops p = false ->
  workplaces_pages api (S fuel) sh pg true acc fetched (mkState w log) =
  workplaces_pages api fuel sh (pg + 1) true (acc ++ items p) true
    (mkState w1 (log ++ [workplaces_request sh pg])).
Proof.
  intros Hget Hstop. apply stops_false in Hstop as (Hn & x & l & Hi).
  enter_pass Hget. unfold response. rewrite Hi, Hn. reflexivity.
Qed.

Lemma workplaces_pass_stop fuel sh pg acc fetched w log p w1 :
  get_workplaces api w (workplaces_request sh pg) = (response p, w1) ->
  stops p = true ->
  workplaces_pages api (S fuel) sh pg true acc fetched (mkState w log) =
  Value (acc ++ items p, fetched || negb (is_empty p))
    (mkState w1 (log ++ [workplaces_request sh pg])).
Proof.
  intros Hget Hstop. unfold is_empty.
  apply stops_true in Hstop as [Hi | (Hn & x & l & Hi)];
    enter_pass Hget; unfold response; rewrite Hi.
  - cbn. rewrite app_nil_r, orb_false_r. reflexivity.
  - rewrite Hn. cbn. rewrite orb_true_r. destruct fuel; reflexivity.
Qed.

Lemma workplaces_pass_fatal fuel sh pg acc fetched w log a w1 :
  get_workplaces api w (workplaces_request sh pg) = (a, w1) ->
  fatal a = true ->
  workplaces_pages api (S fuel) sh pg true acc fetched (mkState w log) =
  Exited 1 (mkState w1 (log ++ [workplaces_request sh pg])).
Proof.
  intros Hget Hf.
  apply fatal_cases in Hf as [-> | [-> | (x & l & ->)]];
    enter_pass Hget; reflexivity.
Qed.

Lemma shifts_pass_on fuel pg acc w log p w1 :
  get_shifts api w (shifts_request pg) = (response p, w1) ->
  stops p = false ->
  shifts_pages api (S fuel) pg true acc (mkState w log) =
  shifts_pages api fuel (pg + 1) true (acc ++ items p)
    (mkState w1 (log ++ [shifts_request pg])).
Proof.
  intros Hget Hstop. apply stops_false in Hstop as (Hn & x & l & Hi).
  enter_pass Hget. unfold response. rewrite Hi, Hn. reflexivity.
Qed.

Lemma shifts_pass_stop fuel pg acc w log p w1 :
  get_shifts api w (shifts_request pg) = (response p, w1) ->
  stops p = true ->
  shifts_pages api (S fuel) pg true acc (mkState w log) =
  Value (acc ++ items p) (mkState w1 (log ++ [shifts_request pg])).
Proof.
  intros Hget Hstop.
  apply stops_true in Hstop as [Hi | (Hn & x & l & Hi)];
    enter_pass Hget; unfold response; rewrite Hi.
  - cbn. rewrite app_nil_r. reflexivity.
  - rewrite Hn. cbn. destruct fuel; reflexivity.
Qed.

Lemma shifts_pass_fatal fuel pg acc w log a w1 :
  get_shifts api w (shifts_request pg) = (a, w1) ->
  fatal a = true ->
  shifts_pages api (S fuel) pg true acc (mkState w log) =
  Exited 1 (mkState w1 (log ++ [shifts_request pg])).
Proof.
  intros Hget Hf.
  apply fatal_cases in Hf as [-> | [-> | (x & l & ->)]];
    enter_pass Hget; reflexivity.
Qed.

End Passes.
(** *** A whole listing *)

Section Runs.

Context {W : Type}.
Variable api : Api W.

Lemma length_exchanges {A} (mk : Z -> Request) (pg : Z) (pages : list (Page A)) :
  length (exchanges mk pg pages) = length pages.
Proof.
  revert pg. induction pages as [|p rest IH]; intros pg; cbn;
    [reflexivity | f_equal; apply IH].
Qed.

(** The pages of a shard, asked for in turn, are all taken in; the flag
    tells whether the first of them had items. *)
Lemma workplaces_shard_run (pages : list (Page Workplace)) :
  ends_at_first_stop pages = true ->
  forall fuel sh pg acc fetched w log w1,
    (length pages <= fuel)%nat ->
    serves (get_workplaces api) w (exchanges (workplaces_request sh) pg pages) w1 ->
    workplaces_pages api fuel sh pg true acc fetched (mkState w log) =
    Value (acc ++ all_items pages, fetched || productive pages)
      (mkState w1 (log ++ map fst (exchanges (workplaces_request sh) pg pages))).
Proof.
  induction pages as [|p rest IH]; [discriminate |].
  intros Hends fuel sh pg acc fetched w log w1 Hfuel (w2 & Hget & Hrest).
  destruct fuel as [|fuel]; [cbn in Hfuel; lia |].
  apply ends_at_first_stop_cons in Hends as [[Hstop ->] | [Hgo Hends]].
  - cbn in Hrest. subst w1.
    rewrite (workplaces_pass_stop api fuel sh pg acc fetched w log p w2 Hget Hstop).
    unfold all_items. cbn. rewrite app_nil_r. reflexivity.
  - rewrite (workplaces_pass_on api fuel sh pg acc fetched w log p w2 Hget Hgo).
    rewrite (IH Hends fuel sh (pg + 1) (acc ++ items p) true w2 _ w1);
      [| cbn in Hfuel; lia | exact Hrest].
    apply stops_false in Hgo as (_ & x & l & Hi).
    rewrite all_items_cons. cbn [productive exchanges map fst orb].
    unfold is_empty. rewrite Hi. cbn [negb]. rewrite orb_true_r.
    rewrite <- !app_assoc. reflexivity.
Qed.

(** Pages that go on, then an answer that is fatal. *)
Lemma workplaces_shard_fatal (pages : list (Page Workplace)) :
  forallb (fun p => negb (stops p)) pages = true ->
  forall fuel sh pg acc fetched w log w1 bad,
    (length pages < fuel)%nat ->
    fatal bad = true ->
    serves (get_workplaces api) w
      (exchanges (workplaces_request sh) pg pages ++
       [(workplaces_request sh (pg + Z.of_nat (length pages)), bad)]) w1 ->
    workplaces_pages api fuel sh pg true acc fetched (mkState w log) =
    Exited 1
      (mkState w1
         (log ++ map fst (exchanges (workplaces_request sh) pg pages) ++
          [workplaces_request sh (pg + Z.of_nat (length pages))])).
Proof.
  induction pages as [|p rest IH];
    intros Hgo fuel sh pg acc fetched w log w1 bad Hfuel Hbad Hserves;
    (destruct fuel as [|fuel]; [cbn in Hfuel; lia |]).
  - cbn in Hserves. destruct Hserves as (w2 & Hget & ->).
    cbn [length Z.of_nat] in *. rewrite Z.add_0_r in *.
    apply (workplaces_pass_fatal api fuel sh pg acc fetched w log bad w2 Hget Hbad).
  - cbn [forallb] in Hgo. apply andb_true_iff in Hgo as [Hp Hgo].
    apply negb_true_iff in Hp.
    cbn [exchanges app serves] in Hserves. destruct Hserves as (w2 & Hget & Hrest).
    rewrite (workplaces_pass_on api fuel sh pg acc fetched w log p w2 Hget Hp).
    replace (pg + Z.of_nat (length (p :: rest)))
      with (pg + 1 + Z.of_nat (length rest)) in * by (cbn [length]; lia).
    rewrite (IH Hgo fuel sh (pg + 1) (acc ++ items p) true w2 _ w1 bad);
      [| cbn in Hfuel; lia | exact Hbad | exact Hrest].
    cbn [exchanges map fst]. rewrite <- !app_assoc. reflexivity.
Qed.

Lemma shifts_run (pages : list (Page Shift)) :
  ends_at_first_stop pages = true ->
  forall fuel pg acc w log w1,
    (length pages <= fuel)%nat ->
    serves (get_shifts api) w (exchanges shifts_request pg pages) w1 ->
    shifts_pages api fuel pg true acc (mkState w log) =
    Value (acc ++ all_items pages)
      (mkState w1 (log ++ map fst (exchanges shifts_request pg pages))).
Proof.
  induction pages as [|p rest IH]; [discriminate |].
  intros Hends fuel pg acc w log w1 Hfuel (w2 & Hget & Hrest).
  destruct fuel as [|fuel]; [cbn in Hfuel; lia |].
  apply ends_at_first_stop_cons in Hends as [[Hstop ->] | [Hgo Hends]].
  - cbn in Hrest. subst w1.
    rewrite (shifts_pass_stop api fuel pg acc w log p w2 Hget Hstop).
    unfold all_items. cbn. rewrite app_nil_r. reflexivity.
  - rewrite (shifts_pass_on api fuel pg acc w log p w2 Hget Hgo).
    rewrite (IH Hends fuel (pg + 1) (acc ++ items p) w2 _ w1);
      [| cbn in Hfuel; lia | exact Hrest].
    rewrite all_items_cons. cbn [exchanges map fst].
    rewrite <- !app_assoc. reflexivity.
Qed.

Lemma shifts_fatal (pages : list (Page Shift)) :
  forallb (fun p => negb (stops p)) pages = true ->
  forall fuel pg acc w log w1 bad,
    (length pages < fuel)%nat ->
    fatal bad = true ->
    serves (get_shifts api) w
      (exchanges shifts_request pg pages ++
       [(shifts_request (pg + Z.of_nat (length pages)), bad)]) w1 ->
    shifts_pages api fuel pg true acc (mkState w log) =
    Exited 1
      (mkState w1
         (log ++ map fst (exchanges shifts_request pg pages) ++
          [shifts_request (pg + Z.of_nat (length pages))])).
Proof.
  induction pages as [|p rest IH];
    intros Hgo fuel pg acc w log w1 bad Hfuel Hbad Hserves;
    (destruct fuel as [|fuel]; [cbn in Hfuel; lia |]).
  - cbn in Hserves. destruct Hserves as (w2 & Hget & ->).
    cbn [length Z.of_nat] in *. rewrite Z.add_0_r in *.
    apply (shifts_pass_fatal api fuel pg acc w log bad w2 Hget Hbad).
  - cbn [forallb] in Hgo. apply andb_true_iff in Hgo as [Hp Hgo].
    apply negb_true_iff in Hp.
    cbn [exchanges app serves] in Hserves. destruct Hserves as (w2 & Hget & Hrest).
    rewrite (shifts_pass_on api fuel pg acc w log p w2 Hget Hp).
    replace (pg + Z.of_nat (length (p :: rest)))
      with (pg + 1 + Z.of_nat (length rest)) in * by (cbn [length]; lia).
    rewrite (IH Hgo fuel (pg + 1) (acc ++ items p) w2 _ w1 bad);
      [| cbn in Hfuel; lia | exact Hbad | exact Hrest].
    cbn [exchanges map fst]. rewrite <- !app_assoc. reflexivity.
Qed.

(** A listing whose every page has items and a next link keeps the loop
    going: whatever the budget, it is used up. *)
Lemma shifts_pages_never_stops :
  (forall w r, exists p w',
      get_shifts api w r = (response p, w') /\ stops p = false) ->
  forall fuel pg acc s, shifts_pages api fuel pg true acc s = OutOfFuel.
Proof.
  intros Hgo. induction fuel as [|fuel IH]; intros pg acc [w log];
    [reflexivity |].
  destruct (Hgo w (shifts_request pg)) as (p & w' & Hget & Hp).
  rewrite (shifts_pass_on api fuel pg acc w log p w' Hget Hp). apply IH.
Qed.

(** *** Shard after shard *)

Lemma shard_exchanges_app (sh : Z) (l1 l2 : list (list (Page Workplace))) :
  shard_exchanges sh (l1 ++ l2) =
  shard_exchanges sh l1 ++ shard_exchanges (sh + Z.of_nat (length l1)) l2.
Proof.
  revert sh. induction l1 as [|pages rest IH]; intros sh.
  - cbn. rewrite Z.add_0_r. reflexivity.
  - cbn [app shard_exchanges length]. rewrite IH, <- app_assoc.
    replace (sh + 1 + Z.of_nat (length rest)) with (sh + Z.of_nat (S (length rest)))
      by lia.
    reflexivity.
Qed.

Lemma shard_ok_nonempty (pages : list (Page Workplace)) :
  shard_ok pages = true -> (1 <= length pages)%nat.
Proof. destruct pages; [discriminate | cbn; lia]. Qed.

Lemma shard_exchanges_room (sh : Z) (visited : list (list (Page Workplace))) :
  forallb shard_ok visited = true ->
  (length visited <= length (shard_exchanges sh visited))%nat /\
  Forall (fun pages => (length pages <= length (shard_exchanges sh visited))%nat)
         visited.
Proof.
  revert sh. induction visited as [|pages rest IH]; intros sh Hok.
  - split; [cbn; lia | constructor].
  - cbn [forallb] in Hok. apply andb_true_iff in Hok as [Hp Hok].
    destruct (IH (sh + 1) Hok) as [Hlen Hall].
    apply shard_ok_nonempty in Hp.
    cbn [shard_exchanges length]. rewrite length_app, length_exchanges.
    split; [lia |]. constructor; [lia |].
    eapply List.Forall_impl; [| exact Hall]. cbn. intros ps Hps. lia.
Qed.

(** The shards that have items are gone through one after the other, and
    the outer loop stands at the next shard index. *)
Lemma workplaces_shards_prefix (visited : list (list (Page Workplace))) :
  forallb shard_ok visited = true ->
  forall fuel pageFuel sh acc w log w1,
    Forall (fun pages => (length pages <= pageFuel)%nat) visited ->
    serves (get_workplaces api) w (shard_exchanges sh visited) w1 ->
    workplaces_shards api (length visited + fuel) pageFuel sh acc (mkState w log) =
    workplaces_shards api fuel pageFuel (sh + Z.of_nat (length visited))
      (acc ++ all_items (concat visited))
      (mkState w1 (log ++ map fst (shard_exchanges sh visited))).
Proof.
  induction visited as [|pages rest IH];
    intros Hok fuel pageFuel sh acc w log w1 Hroom Hserves.
  - cbn in Hserves. subst w1. cbn. rewrite Z.add_0_r, !app_nil_r. reflexivity.
  - cbn [forallb] in Hok. apply andb_true_iff in Hok as [Hp Hok].
    apply andb_true_iff in Hp as [Hends Hprod].
    apply List.Forall_cons_iff in Hroom as [Hlen Hroom].
    cbn [shard_exchanges] in Hserves.
    apply serves_app in Hserves as (w2 & Hshard & Hrest).
    cbn [length Nat.add workplaces_shards]. unfold bind at 1.
    rewrite (workplaces_shard_run pages Hends pageFuel sh 1 acc false w log w2
               Hlen Hshard).
    cbn [fst snd orb]. rewrite Hprod. cbn [negb].
    rewrite (IH Hok fuel pageFuel (sh + 1) _ w2 _ w1 Hroom Hrest).
    cbn [concat shard_exchanges]. rewrite all_items_app, map_app, <- !app_assoc.
    replace (sh + 1 + Z.of_nat (length rest)) with (sh + Z.of_nat (S (length rest)))
      by lia.
    reflexivity.
Qed.

End Runs.

(** *** The theorems on the traversals *)

(** C1: a sharded traversal asks for shard 0, 1, 2, ... in turn, each from
    page 1 on.  When the shards [visited] have items on their first page
    and shard number [length visited] answers its first page with no
    items, the traversal returns (given fuel for its requests) the items
    of the visited shards, in shard, page and in-page order; the requests
    it has sent are those for the pages of the visited shards and the one
    for page 1 of the empty shard, so that no shard index beyond the empty
    shard is asked for, whatever the service holds there. *)
Theorem fetchAllWorkplaces_stops_at_first_empty_shard
    {W : Type} (api : Api W) (s0 : State W) (w1 : W)
    (visited : list (list (Page Workplace))) (gap : Page Workplace)
    (fuel : nat) :
  forallb shard_ok visited = true ->
  is_empty gap = true ->
  serves (get_workplaces api) (world s0)
    (shard_exchanges 0 (visited ++ [[gap]])) w1 ->
  (length (shard_exchanges 0 (visited ++ [[gap]])) <= fuel)%nat ->
  fetchAllWorkplaces api fuel s0 =
    Value (all_items (concat visited))
      (mkState w1
         (issued s0 ++ shard_requests 0 (map length visited ++ [1%nat]))) /\
  Forall (fun r => exists k, shard r = Some k /\
                             0 <= k <= Z.of_nat (length visited))
         (shard_requests 0 (map length visited ++ [1%nat])).
Proof.
  intros Hok Hgap Hserves Hfuel. split.
  - rewrite shard_exchanges_app in Hserves, Hfuel.
    apply serves_app in Hserves as (w2 & Hvisited & Hlast).
    rewrite length_app in Hfuel.
    destruct (shard_exchanges_room 0 visited Hok) as [Hn Hroom].
    cbn [shard_exchanges exchanges app length] in Hfuel.
    unfold fetchAllWorkplaces.
    replace fuel with (length visited + S (fuel - length visited - 1))%nat at 1
      by lia.
    destruct s0 as [w0 log0]. cbn [world issued] in *.
    rewrite (workplaces_shards_prefix api visited Hok _ fuel 0 [] w0 log0 w2);
      [| eapply List.Forall_impl; [| exact Hroom]; cbn; intros; lia
       | exact Hvisited ].
    cbn [workplaces_shards]. unfold bind at 1.
    assert (Hstop : ends_at_first_stop [gap] = true).
    { cbn. unfold stops. rewrite Hgap. apply orb_true_r. }
    cbn [shard_exchanges] in Hlast. rewrite app_nil_r in Hlast.
    rewrite (workplaces_shard_run api [gap] Hstop fuel _ 1 _ false w2 _ w1);
      [| cbn; lia | exact Hlast].
    cbn [fst snd productive orb]. rewrite Hgap. cbn [negb].
    unfold ret. f_equal.
    + unfold all_items at 2. cbn. unfold is_empty in Hgap.
      destruct (items gap); [| discriminate]. rewrite !app_nil_r. reflexivity.
    + f_equal. rewrite <- app_assoc. f_equal.
      replace (map length visited ++ [1%nat])
        with (map length (visited ++ [[gap]])) by (rewrite map_app; reflexivity).
      rewrite <- map_fst_shard_exchanges, shard_exchanges_app, map_app.
      cbn. reflexivity.
  - eapply List.Forall_impl; [| apply shard_requests_bounds].
    cbn. intros r (k & Hk & Hb). exists k. split; [exact Hk |].
    rewrite length_app, length_map in Hb. cbn in Hb. lia.
Qed.

Lemma fetchAllWorkplaces_stops_at_first_empty_shard_witness :
  fetchAllWorkplaces
    (Scenarios.stateless Scenarios.gapped (fun _ => Rejected)) 4
    (mkState tt []) =
    Value [Scenarios.wpA; Scenarios.wpB; Scenarios.wpC]
      (mkState tt
         [workplaces_request 0 1; workplaces_request 0 2;
          workplaces_request 0 3; workplaces_request 1 1]) /\
  Forall (fun r => exists k, shard r = Some k /\ 0 <= k <= 1)
    [workplaces_request 0 1; workplaces_request 0 2;
     workplaces_request 0 3; workplaces_request 1 1].
Proof.
  apply (fetchAllWorkplaces_stops_at_first_empty_shard
           (Scenarios.stateless Scenarios.gapped (fun _ => Rejected))
           (mkState tt []) tt
           [[mkPage [Scenarios.wpA; Scenarios.wpB] true;
             mkPage [Scenarios.wpC] true;
             mkPage [] true]]
           (mkPage [] false) 4).
  - reflexivity.
  - reflexivity.
  - cbn. repeat (eexists; split; [reflexivity |]). reflexivity.
  - cbn. lia.
Defined.

(** C2: a flat traversal asks for page 1, 2, 3, ... in turn.  When the
    service answers with the pages [pages] and one of them has no next
    link or is empty, the traversal returns (given fuel for its requests)
    the items of the pages up to and including the first such page, in
    page order; the requests it has sent are those for the page indices
    1, 2, ..., [k], each once, [k] being the number of those pages. *)
Theorem fetchAllShifts_collects_upto_first_stop
    {W : Type} (api : Api W) (s0 : State W) (w1 : W)
    (pages : list (Page Shift)) (fuel : nat) :
  existsb stops pages = true ->
  serves (get_shifts api) (world s0)
    (exchanges shifts_request 1 (upto_first_stop pages)) w1 ->
  (length (upto_first_stop pages) <= fuel)%nat ->
  fetchAllShifts api fuel s0 =
    Value (all_items (upto_first_stop pages))
      (mkState w1
         (issued s0 ++
          map shifts_request (page_indices (length (upto_first_stop pages))))).
Proof.
  intros Hstop Hserves Hfuel. destruct s0 as [w0 log0]. cbn [world issued] in *.
  unfold fetchAllShifts.
  rewrite (shifts_run api (upto_first_stop pages) (upto_first_stop_ends pages Hstop)
             fuel 1 [] w0 log0 w1 Hfuel Hserves).
  pose proof (map_fst_exchanges shifts_request 1 (upto_first_stop pages)) as E.
  change (Z.of_nat 1) with 1 in E. rewrite E. reflexivity.
Qed.

Lemma fetchAllShifts_collects_upto_first_stop_witness :
  fetchAllShifts Scenarios.queued 2
    (mkState ([], map response Scenarios.two_pages) []) =
    Value (Scenarios.shifts_of 1 [1; 2; 3; 4; 5; 6; 7; 8; 9; 10] ++
           Scenarios.shifts_of 3 [11; 12; 13])
      (mkState ([], []) [shifts_request 1; shifts_request 2]).
Proof.
  apply (fetchAllShifts_collects_upto_first_stop Scenarios.queued
           (mkState ([], map response Scenarios.two_pages) []) ([], [])
           Scenarios.two_pages 2).
  - reflexivity.
  - cbn. repeat (eexists; split; [reflexivity |]). reflexivity.
  - cbn. lia.
Defined.

Lemma page_indices_S (n : nat) :
  page_indices (S n) = page_indices n ++ [1 + Z.of_nat n].
Proof.
  unfold page_indices. rewrite seq_S, map_app. cbn [map]. do 2 f_equal. lia.
Qed.

Lemma map_fst_exchanges_1 {A} (mk : Z -> Request) (pages : list (Page A)) :
  map fst (exchanges mk 1 pages) = map mk (page_indices (length pages)).
Proof. apply (map_fst_exchanges mk 1 pages). Qed.

(** A body whose data field is no array is taken for an empty page: the
    traversal ends in the ordinary way and returns what it has. *)
Lemma not_an_array_ends_normally :
  fetchAllShifts Scenarios.queued 2
    (mkState ([], Scenarios.not_an_array) []) =
  Value (Scenarios.shifts_of 1 [1; 2])
    (mkState ([], []) [shifts_request 1; shifts_request 2]).
Proof. reflexivity. Qed.

(** C5, as the specification words it, does not hold for every malformed
    response: the second answer of [not_an_array] carries no array, and
    the traversal does not exit on it. *)
Lemma malformed_answer_not_always_fatal :
  ~ (forall (W : Type) (api : Api W) (s0 : State W) (w1 : W)
            (pages : list (Page Shift)) (bad : AxiosResult Shift) (fuel : nat),
       forallb (fun p => negb (stops p)) pages = true ->
       bad = Rejected \/ malformed bad = true ->
       serves (get_shifts api) (world s0)
         (exchanges shifts_request 1 pages ++
          [(shifts_request (1 + Z.of_nat (length pages)), bad)]) w1 ->
       (length pages < fuel)%nat ->
       exists code s', fetchAllShifts api fuel s0 = Exited code s').
Proof.
  intros H.
  destruct (H Scenarios.Queues Scenarios.queued
              (mkState ([], Scenarios.not_an_array) []) ([], [])
              [mkPage (Scenarios.shifts_of 1 [1; 2]) true]
              (Resolved (BodyObject DataOther LinksNullish)) 2%nat)
    as (code & s' & Hrun).
  - reflexivity.
  - right. reflexivity.
  - cbn. repeat (eexists; split; [reflexivity |]). reflexivity.
  - cbn. lia.
  - rewrite not_an_array_ends_normally in Hrun. discriminate Hrun.
Qed.

(** C5, amended: an answer that is a rejected promise (no connection, a
    status outside 2xx), a response without a body object, or a page with
    items and without a links object ends the traversal by
    [process.exit(1)], in [fetchAllShifts] and in [fetchAllWorkplaces]
    alike, wherever in the traversal it comes; nothing is returned. *)
Theorem fatal_answer_exits
    {W : Type} (api : Api W) (s0 : State W) (w1 : W) (fuel : nat) :
  (forall (pages : list (Page Shift)) (bad : AxiosResult Shift),
     forallb (fun p => negb (stops p)) pages = true ->
     fatal bad = true ->
     serves (get_shifts api) (world s0)
       (exchanges shifts_request 1 pages ++
        [(shifts_request (1 + Z.of_nat (length pages)), bad)]) w1 ->
     (length pages < fuel)%nat ->
     fetchAllShifts api fuel s0 =
       Exited 1
         (mkState w1
            (issued s0 ++
             map shifts_request (page_indices (S (length pages)))))) /\
  (forall (visited : list (list (Page Workplace)))
          (pages : list (Page Workplace)) (bad : AxiosResult Workplace),
     forallb shard_ok visited = true ->
     forallb (fun p => negb (stops p)) pages = true ->
     fatal bad = true ->
     serves (get_workplaces api) (world s0)
       (shard_exchanges 0 visited ++
        exchanges (workplaces_request (Z.of_nat (length visited))) 1 pages ++
        [(workplaces_request (Z.of_nat (length visited))
            (1 + Z.of_nat (length pages)), bad)]) w1 ->
     (length (shard_exchanges 0 visited) + length pages < fuel)%nat ->
     fetchAllWorkplaces api fuel s0 =
       Exited 1
         (mkState w1
            (issued s0 ++
             shard_requests 0 (map length visited ++ [S (length pages)])))).
Proof.
  destruct s0 as [w0 log0]. cbn [world issued]. split.
  - intros pages bad Hgo Hbad Hserves Hfuel. unfold fetchAllShifts.
    rewrite (shifts_fatal api pages Hgo fuel 1 [] w0 log0 w1 bad Hfuel Hbad Hserves).
    rewrite map_fst_exchanges_1, page_indices_S, map_app. reflexivity.
  - intros visited pages bad Hok Hgo Hbad Hserves Hfuel.
    apply serves_app in Hserves as (w2 & Hvisited & Hlast).
    destruct (shard_exchanges_room 0 visited Hok) as [Hn Hroom].
    unfold fetchAllWorkplaces.
    replace fuel with (length visited + S (fuel - length visited - 1))%nat at 1
      by lia.
    rewrite (workplaces_shards_prefix api visited Hok _ fuel 0 [] w0 log0 w2);
      [| eapply List.Forall_impl; [| exact Hroom]; cbn; intros; lia
       | exact Hvisited ].
    cbn [workplaces_shards]. unfold bind at 1.
    rewrite Z.add_0_l.
    rewrite (workplaces_shard_fatal api pages Hgo fuel _ 1 _ false w2 _ w1 bad);
      [| lia | exact Hbad | exact Hlast].
    do 2 f_equal. rewrite <- app_assoc. f_equal.
    rewrite map_fst_shard_exchanges, map_fst_exchanges_1.
    assert (Happ : forall sh l1 l2,
              shard_requests sh (l1 ++ l2) =
              shard_requests sh l1 ++ shard_requests (sh + Z.of_nat (length l1)) l2).
    { intros sh l1. revert sh. induction l1 as [|n l1 IH]; intros sh l2.
      - cbn. rewrite Z.add_0_r. reflexivity.
      - cbn [app shard_requests length]. rewrite IH, <- app_assoc.
        replace (sh + 1 + Z.of_nat (length l1)) with (sh + Z.of_nat (S (length l1)))
          by lia.
        reflexivity. }
    rewrite Happ, length_map, Z.add_0_l. f_equal.
    cbn [shard_requests]. rewrite app_nil_r, page_indices_S, map_app.
    reflexivity.
Qed.

Lemma fatal_answer_exits_witness :
  fetchAllShifts Scenarios.failing 3 (mkState tt []) =
    Exited 1 (mkState tt [shifts_request 1; shifts_request 2]) /\
  fetchAllWorkplaces Scenarios.failing 3 (mkState tt []) =
    Exited 1 (mkState tt [workplaces_request 0 1; workplaces_request 1 1]).
Proof.
  split.
  - apply (proj1 (fatal_answer_exits Scenarios.failing (mkState tt []) tt 3)
             [mkPage (Scenarios.shifts_of 1 [1; 2]) true] Rejected).
    + reflexivity.
    + reflexivity.
    + cbn. repeat (eexists; split; [reflexivity |]). reflexivity.
    + cbn. lia.
  - apply (proj2 (fatal_answer_exits Scenarios.failing (mkState tt []) tt 3)
             [[mkPage [Scenarios.wpA] false]] [] Rejected).
    + reflexivity.
    + reflexivity.
    + reflexivity.
    + cbn. repeat (eexists; split; [reflexivity |]). reflexivity.
    + cbn. lia.
Defined.

End Traversal.

(** ** Theorems on the ranking *)

Module Ranking.

Import TopWorkplaces Specification.

(** *** The sort *)

Section SortByKey.

Context {A : Type}.
Variable key : A -> Z.
Variable comparefn : A -> A -> Z.
Hypothesis comparefn_key : forall a b, comparefn a b = key b - key a.

Lemma insert_sorted_perm (x : A) (l : list A) :
  Permutation (insert_sorted comparefn x l) (x :: l).
Proof.
  induction l as [|y l IH]; cbn [insert_sorted].
  - apply Permutation_refl.
  - destruct (comparefn x y <=? 0).
    + apply Permutation_refl.
    + apply perm_trans with (y :: x :: l).
      * apply perm_skip, IH.
      * apply perm_swap.
Qed.

Lemma array_sort_perm (l : list A) : Permutation (array_sort comparefn l) l.
Proof.
  induction l as [|x l IH]; cbn [array_sort fold_right].
  - apply perm_nil.
  - apply perm_trans with (x :: array_sort comparefn l).
    + apply insert_sorted_perm.
    + apply perm_skip, IH.
Qed.

(** Insertion does not move an element past one of the same key. *)
Lemma insert_sorted_filter (c : Z) (x : A) (l : list A) :
  List.filter (has_key key c) (insert_sorted comparefn x l) =
  List.filter (has_key key c) (x :: l).
Proof.
  induction l as [|y l IH]; cbn [insert_sorted].
  - reflexivity.
  - destruct (comparefn x y <=? 0) eqn:Hle; [reflexivity |].
    apply Z.leb_gt in Hle. rewrite comparefn_key in Hle.
    cbn [List.filter] in *. rewrite IH. unfold has_key.
    destruct (key y =? c) eqn:Hy; [| reflexivity].
    apply Z.eqb_eq in Hy.
    destruct (key x =? c) eqn:Hx; [| reflexivity].
    apply Z.eqb_eq in Hx. lia.
Qed.

Lemma array_sort_stable (c : Z) (l : list A) :
  List.filter (has_key key c) (array_sort comparefn l) = List.filter (has_key key c) l.
Proof.
  induction l as [|x l IH]; cbn [array_sort fold_right]; [reflexivity |].
  fold (array_sort comparefn l). rewrite insert_sorted_filter.
  cbn [List.filter]. rewrite IH. reflexivity.
Qed.

Lemma insert_sorted_hd (x y : A) (l : list A) :
  HdRel (desc key) y l -> key x <= key y -> HdRel (desc key) y (insert_sorted comparefn x l).
Proof.
  intros Hl Hxy. destruct l as [|z l]; cbn [insert_sorted].
  - constructor. exact Hxy.
  - destruct (comparefn x z <=? 0); constructor.
    + exact Hxy.
    + inversion Hl; assumption.
Qed.

Lemma insert_sorted_Sorted (x : A) (l : list A) :
  Sorted (desc key) l -> Sorted (desc key) (insert_sorted comparefn x l).
Proof.
  induction l as [|y l IH]; intros Hs; cbn [insert_sorted].
  - repeat constructor.
  - inversion Hs as [|? ? Hl Hhd]; subst.
    destruct (comparefn x y <=? 0) eqn:Hle.
    + apply Z.leb_le in Hle. rewrite comparefn_key in Hle.
      constructor; [exact Hs | constructor; unfold desc; lia].
    + apply Z.leb_gt in Hle. rewrite comparefn_key in Hle.
      constructor; [apply IH, Hl | apply insert_sorted_hd; [exact Hhd | lia]].
Qed.

Lemma array_sort_Sorted (l : list A) :
  StronglySorted (desc key) (array_sort comparefn l).
Proof.
  apply Sorted_StronglySorted.
  - intros a b c Hab Hbc. unfold desc in *. lia.
  - induction l as [|x l IH]; cbn [array_sort fold_right].
    + constructor.
    + apply insert_sorted_Sorted, IH.
Qed.

End SortByKey.

Lemma StronglySorted_firstn {A} (R : A -> A -> Prop) (n : nat) (l : list A) :
  StronglySorted R l -> StronglySorted R (firstn n l).
Proof.
  revert n. induction l as [|x l IH]; intros [|n] Hs; cbn [firstn];
    try constructor.
  - apply IH. inversion Hs; assumption.
  - inversion Hs as [|? ? _ Hall]; subst.
    apply List.Forall_forall. intros y Hy.
    rewrite List.Forall_forall in Hall. apply Hall.
    rewrite <- (firstn_skipn n l). apply List.in_or_app. left. exact Hy.
Qed.

Lemma filter_firstn_prefix {A} (f : A -> bool) (n : nat) (l : list A) :
  List.filter f l = List.filter f (firstn n l) ++ List.filter f (skipn n l).
Proof. rewrite <- List.filter_app, firstn_skipn. reflexivity. Qed.

(** Sorting the images is sorting the originals, when the comparators
    agree. *)
Lemma array_sort_map {A B} (f : A -> B) (cmpA : A -> A -> Z) (cmpB : B -> B -> Z)
    (l : list A) :
  (forall a b, cmpB (f a) (f b) = cmpA a b) ->
  array_sort cmpB (map f l) = map f (array_sort cmpA l).
Proof.
  intros Hcmp.
  assert (Hins : forall x l', insert_sorted cmpB (f x) (map f l') =
                              map f (insert_sorted cmpA x l')).
  { intros x l'. induction l' as [|y l' IH]; cbn [map insert_sorted].
    - reflexivity.
    - rewrite Hcmp. destruct (cmpA x y <=? 0); cbn [map]; [reflexivity |].
      rewrite IH. reflexivity. }
  induction l as [|x l IH]; cbn [map array_sort fold_right]; [reflexivity |].
  fold (array_sort cmpB (map f l)). fold (array_sort cmpA l).
  rewrite IH. apply Hins.
Qed.

(** *** The counting *)

Lemma count_references_cons (k : Z) (s : Shift) (ss : list Shift) :
  count_references k (s :: ss) =
  (if references k s then 1 else 0) + count_references k ss.
Proof.
  unfold count_references. cbn [List.filter].
  destruct (references k s); cbn [length]; lia.
Qed.

Lemma count_references_nonneg (k : Z) (ss : list Shift) :
  0 <= count_references k ss.
Proof. unfold count_references. lia. Qed.

Lemma or_zero_insert (m : gmap Z Z) (j k v : Z) :
  0 <= v ->
  or_zero (<[j := v + 1]> m !! k) =
  if j =? k then v + 1 else or_zero (m !! k).
Proof.
  intros Hv. destruct (Z.eqb_spec j k) as [-> | Hne].
  - rewrite lookup_insert_eq. unfold or_zero, Js.truthy_num.
    destruct (Z.eqb_spec (v + 1) 0); [lia | reflexivity].
  - rewrite lookup_insert_ne by exact Hne. reflexivity.
Qed.

(** The counters after the [forEach], started from any map of counters
    that are not negative. *)
Lemma fold_count_shift (ss : list Shift) :
  forall (m : gmap Z Z) (k : Z),
    (forall j, 0 <= or_zero (m !! j)) ->
    or_zero (fold_left count_shift ss m !! k) =
    or_zero (m !! k) + count_references k ss.
Proof.
  induction ss as [|s ss IH]; intros m k Hm; cbn [fold_left].
  - unfold count_references. cbn. lia.
  - rewrite count_references_cons.
    assert (Hstep : forall j,
              or_zero (count_shift m s !! j) =
              or_zero (m !! j) + (if references j s then 1 else 0)).
    { intros j. unfold count_shift, references.
      destruct (workplaceId s) as [i|]; cbn [Js.truthy]; [| lia].
      destruct (Z.eqb_spec i 0) as [Hi | Hi]; cbn [negb andb]; [lia |].
      rewrite or_zero_insert by apply Hm.
      destruct (Z.eqb_spec i j) as [-> | Hne]; lia. }
    rewrite IH.
    + rewrite Hstep. lia.
    + intros j. rewrite Hstep. specialize (Hm j).
      destruct (references j s); lia.
Qed.

Lemma shiftCounts_spec (ss : list Shift) (k : Z) :
  or_zero (shiftCounts ss !! k) = count_references k ss.
Proof.
  unfold shiftCounts. rewrite fold_count_shift.
  - rewrite lookup_empty. cbn. lia.
  - intros j. rewrite lookup_empty. cbn. lia.
Qed.

Lemma workplacesWithShifts_spec (workplaces : list Workplace) (ss : list Shift) :
  workplacesWithShifts workplaces ss =
  map (report ss) (activeWorkplaces workplaces).
Proof.
  unfold workplacesWithShifts. apply map_ext. intros wp.
  unfold report, shift_count. rewrite shiftCounts_spec. reflexivity.
Qed.

Lemma in_activeWorkplaces (workplaces : list Workplace) (wp : Workplace) :
  In wp (activeWorkplaces workplaces) <-> In wp workplaces /\ wp_status wp = 0.
Proof.
  unfold activeWorkplaces. rewrite List.filter_In, Z.eqb_eq. reflexivity.
Qed.

Lemma rankWorkplaces_spec (workplaces : list Workplace) (ss : list Shift) :
  rankWorkplaces workplaces ss =
  map (report ss) (ranked ss workplaces).
Proof.
  unfold rankWorkplaces, slice0, ranked. rewrite workplacesWithShifts_spec.
  rewrite (array_sort_map (report ss) (by_count_desc ss) by_shifts_desc)
    by reflexivity.
  rewrite firstn_map. reflexivity.
Qed.

Lemma rankWorkplaces_origin (workplaces : list Workplace) (ss : list Shift)
    (row : WorkplaceWithShifts) :
  In row (rankWorkplaces workplaces ss) ->
  exists wp, In wp workplaces /\ wp_status wp = 0 /\ row = report ss wp.
Proof.
  rewrite rankWorkplaces_spec. unfold ranked. intros Hrow.
  apply List.in_map_iff in Hrow as (wp & <- & Hwp).
  assert (Hact : In wp (activeWorkplaces workplaces)).
  { apply (Permutation_in wp
             (array_sort_perm (by_count_desc ss) (activeWorkplaces workplaces))).
    rewrite <- (firstn_skipn 3 (array_sort _ _)). apply List.in_or_app.
    left. exact Hwp. }
  apply in_activeWorkplaces in Hact as [Hin Hstatus].
  exists wp. split; [exact Hin | split; [exact Hstatus | reflexivity]].
Qed.

(** *** The theorems on the ranking *)

(** The scenario of the specification: B is inactive, A has two shifts
    and C one. *)
Example ranking_scenario :
  rankWorkplaces [Scenarios.wpA; Scenarios.wpB; Scenarios.wpC]
    (Scenarios.shifts_of 1 [1; 2] ++ Scenarios.shifts_of 3 [3]) =
  [mkRow "A" 2; mkRow "C" 1].
Proof. vm_compute. reflexivity. Qed.

(** Four active workplaces without shifts: the first three, in the order
    they came in. *)
Example ranking_ties :
  rankWorkplaces
    [Scenarios.wpD; Scenarios.wpC; Scenarios.wpA; mkWorkplace 5 "E" 0]
    [mkShift 1 None; mkShift 2 (Some 0)] =
  [mkRow "D" 0; mkRow "C" 0; mkRow "A" 0].
Proof. vm_compute. reflexivity. Qed.

(** C7: the array that is ranked holds, for each active workplace in
    turn, its name and the number of shifts whose workplace reference is
    its identifier, references that are null or 0 not counting; so does
    every row of the result; and an active workplace that no shift
    refers to has the row with count 0, which is in the result when there
    are at most three active workplaces. *)
Theorem reported_count_is_reference_count
    (workplaces : list Workplace) (ss : list Shift) :
  workplacesWithShifts workplaces ss =
    map (fun wp => {| name := wp_name wp;
                      shifts := count_references (wp_id wp) ss |})
        (activeWorkplaces workplaces) /\
  (forall row, In row (rankWorkplaces workplaces ss) ->
     exists wp, In wp workplaces /\ wp_status wp = 0 /\
                name row = wp_name wp /\
                shifts row = count_references (wp_id wp) ss) /\
  (forall wp, In wp workplaces -> wp_status wp = 0 ->
     (forall s, In s ss -> workplaceId s <> Some (wp_id wp)) ->
     In {| name := wp_name wp; shifts := 0 |} (workplacesWithShifts workplaces ss) /\
     ((length (activeWorkplaces workplaces) <= 3)%nat ->
      In {| name := wp_name wp; shifts := 0 |} (rankWorkplaces workplaces ss))).
Proof.
  split; [apply workplacesWithShifts_spec |]. split.
  - intros row Hrow.
    apply rankWorkplaces_origin in Hrow as (wp & Hin & Hstatus & ->).
    exists wp. repeat split; assumption.
  - intros wp Hin Hstatus Hnone.
    assert (Hzero : report ss wp = {| name := wp_name wp; shifts := 0 |}).
    { unfold report, shift_count, count_references. f_equal.
      replace (List.filter (references (wp_id wp)) ss) with (@nil Shift);
        [reflexivity |].
      symmetry. induction ss as [|s ss' IH]; [reflexivity |].
      cbn [List.filter].
      assert (Hs : references (wp_id wp) s = false).
      { unfold references. specialize (Hnone s (or_introl eq_refl)).
        destruct (workplaceId s) as [j|]; [| reflexivity].
        destruct (Z.eqb_spec j (wp_id wp)) as [-> | _];
          [congruence | apply andb_false_r]. }
      rewrite Hs. apply IH. intros s' Hs'. apply Hnone. right. exact Hs'. }
    assert (Hact : In wp (activeWorkplaces workplaces)).
    { apply in_activeWorkplaces. split; assumption. }
    rewrite <- Hzero. split.
    + rewrite workplacesWithShifts_spec. apply List.in_map, Hact.
    + intros Hfew. rewrite rankWorkplaces_spec. unfold ranked. apply List.in_map.
      rewrite firstn_all2.
      * apply (Permutation_in wp
                 (Permutation_sym
                    (array_sort_perm (by_count_desc ss)
                       (activeWorkplaces workplaces)))).
        exact Hact.
      * rewrite (Permutation_length
                   (array_sort_perm (by_count_desc ss)
                      (activeWorkplaces workplaces))).
        exact Hfew.
Qed.

(** C8: every row of the result is the row of a workplace of the input
    whose status is 0; the result is the one the active workplaces alone
    would give; and with no active workplace the result is empty. *)
Theorem inactive_workplaces_excluded
    (workplaces : list Workplace) (ss : list Shift) :
  (forall row, In row (rankWorkplaces workplaces ss) ->
     exists wp, In wp workplaces /\ wp_status wp = 0 /\ row = report ss wp) /\
  rankWorkplaces workplaces ss = rankWorkplaces (activeWorkplaces workplaces) ss /\
  ((forall wp, In wp workplaces -> wp_status wp <> 0) ->
   rankWorkplaces workplaces ss = []).
Proof.
  split; [intros row; apply rankWorkplaces_origin |].
  assert (Hidem : forall l, activeWorkplaces (activeWorkplaces l) = activeWorkplaces l).
  { intros l. unfold activeWorkplaces.
    induction l as [|wp l IH]; cbn [List.filter]; [reflexivity |].
    destruct (wp_status wp =? 0) eqn:Hs; cbn [List.filter]; [| exact IH].
    rewrite Hs, IH. reflexivity. }
  split.
  - rewrite !rankWorkplaces_spec. unfold ranked. rewrite Hidem. reflexivity.
  - intros Hnone. rewrite rankWorkplaces_spec. unfold ranked.
    replace (activeWorkplaces workplaces) with (@nil Workplace); [reflexivity |].
    symmetry. unfold activeWorkplaces.
    induction workplaces as [|wp l IH]; cbn [List.filter]; [reflexivity |].
    destruct (Z.eqb_spec (wp_status wp) 0) as [Hs | _].
    + exfalso. apply (Hnone wp); [left; reflexivity | exact Hs].
    + apply IH. intros wp' Hwp'. apply Hnone. right. exact Hwp'.
Qed.

(** C9: the result is the first three entries (fewer when there are
    fewer) of the sorted array; the sorted array has the rows of the
    active workplaces, in descending order of shift count, and the rows
    of one and the same count in the order of the active workplaces they
    come from.  On the workplaces: the result reports the list [ranked]
    of active workplaces, and for every count the workplaces of that
    count in [ranked] are the first ones of that count among the active
    workplaces, in their order. *)
Theorem ranking_sorted_stable_top3
    (workplaces : list Workplace) (ss : list Shift) :
  rankWorkplaces workplaces ss =
    firstn 3 (array_sort by_shifts_desc (workplacesWithShifts workplaces ss)) /\
  (length (rankWorkplaces workplaces ss) <= 3)%nat /\
  Permutation (array_sort by_shifts_desc (workplacesWithShifts workplaces ss))
    (workplacesWithShifts workplaces ss) /\
  StronglySorted (desc shifts)
    (array_sort by_shifts_desc (workplacesWithShifts workplaces ss)) /\
  StronglySorted (desc shifts) (rankWorkplaces workplaces ss) /\
  (forall c,
     List.filter (has_key shifts c)
       (array_sort by_shifts_desc (workplacesWithShifts workplaces ss)) =
     List.filter (has_key shifts c) (workplacesWithShifts workplaces ss)) /\
  rankWorkplaces workplaces ss = map (report ss) (ranked ss workplaces) /\
  (forall c, exists rest,
     List.filter (has_key (shift_count ss) c) (activeWorkplaces workplaces) =
     List.filter (has_key (shift_count ss) c) (ranked ss workplaces) ++ rest).
Proof.
  assert (Hkey : forall a b : WorkplaceWithShifts,
            by_shifts_desc a b = shifts b - shifts a) by reflexivity.
  assert (Hsorted : StronglySorted (desc shifts)
            (array_sort by_shifts_desc (workplacesWithShifts workplaces ss)))
    by apply (array_sort_Sorted shifts by_shifts_desc Hkey).
  split; [reflexivity |].
  split; [unfold rankWorkplaces, slice0; apply firstn_le_length |].
  split; [apply array_sort_perm |].
  split; [exact Hsorted |].
  split; [apply StronglySorted_firstn, Hsorted |].
  split; [intros c; apply (array_sort_stable shifts by_shifts_desc Hkey) |].
  split; [apply rankWorkplaces_spec |].
  intros c.
  exists (List.filter (has_key (shift_count ss) c)
            (skipn 3 (array_sort (by_count_desc ss) (activeWorkplaces workplaces)))).
  unfold ranked. rewrite <- filter_firstn_prefix.
  symmetry.
  apply (array_sort_stable (shift_count ss) (by_count_desc ss)). reflexivity.
Qed.

End Ranking.

(** ** More on the shifts service *)

Module ShiftsTableFacts.

Import ShiftsService ShiftsTable.

(** What a call does, by the row it finds. *)
Lemma claim_cases (db : gmap Z Shift) (shiftId w : Z) :
  (db !! shiftId = None /\
   claim shiftId w db = (Throw (NotFoundException shiftId), db)) \/
  (exists s, db !! shiftId = Some s /\ Js.truthy (workerId s) = true /\
     claim shiftId w db =
       (Throw (BadRequestException shiftId AlreadyClaimed), db)) \/
  (exists s, db !! shiftId = Some s /\ Js.truthy (workerId s) = false /\
     claim shiftId w db =
       (Return (mkShift (id s) (Some w) None),
        <[shiftId := mkShift (id s) (Some w) None]> db)).
Proof.
  destruct (db !! shiftId) as [s|] eqn:Hs.
  - right. destruct (Js.truthy (workerId s)) eqn:Ht.
    + left. exists s. repeat split; try assumption.
      apply (ShiftsLifecycle.claim_found_claimed db shiftId w s Hs Ht).
    + right. exists s. repeat split; try assumption.
      apply (ShiftsLifecycle.claim_found_free db shiftId w s Hs Ht).
  - left. split; [reflexivity |].
    unfold claim, bind, findUnique, throw. cbv beta iota. rewrite Hs. reflexivity.
Qed.

Lemma cancel_cases (db : gmap Z Shift) (now shiftId : Z) :
  (db !! shiftId = None /\
   cancel now shiftId db = (Throw (NotFoundException shiftId), db)) \/
  (exists s, db !! shiftId = Some s /\ Js.truthy (workerId s) = false /\
     cancel now shiftId db =
       (Throw (BadRequestException shiftId NotClaimed), db)) \/
  (exists s, db !! shiftId = Some s /\ Js.truthy (workerId s) = true /\
     cancel now shiftId db =
       (Return (mkShift (id s) None (Some now)),
        <[shiftId := mkShift (id s) None (Some now)]> db)).
Proof.
  destruct (db !! shiftId) as [s|] eqn:Hs.
  - right. destruct (Js.truthy (workerId s)) eqn:Ht.
    + right. exists s. repeat split; try assumption.
      apply (ShiftsLifecycle.cancel_found_claimed db now shiftId s Hs Ht).
    + left. exists s. repeat split; try assumption.
      apply (ShiftsLifecycle.cancel_found_free db now shiftId s Hs Ht).
  - left. split; [reflexivity |].
    unfold cancel, bind, findUnique, throw. cbv beta iota. rewrite Hs. reflexivity.
Qed.

(** X1: on an identifier that is not in the table, [claim] and [cancel]
    throw the not-found exception and leave the table as it was. *)
Theorem missing_shift_not_found
    (db : gmap Z Shift) (shiftId w now : Z) :
  db !! shiftId = None ->
  claim shiftId w db = (Throw (NotFoundException shiftId), db) /\
  cancel now shiftId db = (Throw (NotFoundException shiftId), db).
Proof.
  intros Hs. split.
  - destruct (claim_cases db shiftId w) as [[_ H] | [(s & Hs' & _) | (s & Hs' & _)]];
      [exact H | congruence | congruence].
  - destruct (cancel_cases db now shiftId)
      as [[_ H] | [(s & Hs' & _) | (s & Hs' & _)]];
      [exact H | congruence | congruence].
Qed.

Lemma missing_shift_not_found_witness :
  claim 7 3 (∅ : gmap Z Shift) = (Throw (NotFoundException 7), ∅) /\
  cancel 2000 7 (∅ : gmap Z Shift) = (Throw (NotFoundException 7), ∅).
Proof.
  apply (missing_shift_not_found ∅ 7 3 2000). apply lookup_empty.
Defined.

(** X2: whatever the outcome, [claim] and [cancel] leave every row other
    than the one asked for as it was, and neither add nor remove a row. *)
Theorem lifecycle_touches_one_row
    (db : gmap Z Shift) (shiftId w now other : Z) :
  other <> shiftId ->
  (snd (claim shiftId w db) !! other = db !! other /\
   dom (snd (claim shiftId w db)) = dom db) /\
  (snd (cancel now shiftId db) !! other = db !! other /\
   dom (snd (cancel now shiftId db)) = dom db).
Proof.
  intros Hne.
  assert (Hdom : forall s s', db !! shiftId = Some s ->
            dom (<[shiftId := s']> db) = dom db).
  { intros s s' Hs. rewrite dom_insert_L.
    apply subseteq_union_1_L, singleton_subseteq_l, elem_of_dom. eauto. }
  split.
  - destruct (claim_cases db shiftId w)
      as [[_ ->] | [(s & _ & _ & ->) | (s & Hs & _ & ->)]]; cbn [snd];
      try (split; reflexivity).
    split; [apply lookup_insert_ne; congruence | apply (Hdom s), Hs].
  - destruct (cancel_cases db now shiftId)
      as [[_ ->] | [(s & _ & _ & ->) | (s & Hs & _ & ->)]]; cbn [snd];
      try (split; reflexivity).
    split; [apply lookup_insert_ne; congruence | apply (Hdom s), Hs].
Qed.

Lemma lifecycle_touches_one_row_witness :
  let db : gmap Z Shift :=
    <[8 := mkShift 8 (Some 3) None]> {[ 7 := mkShift 7 None None ]} in
  (snd (claim 7 4 db) !! 8 = db !! 8 /\ dom (snd (claim 7 4 db)) = dom db) /\
  (snd (cancel 2000 7 db) !! 8 = db !! 8 /\
   dom (snd (cancel 2000 7 db)) = dom db).
Proof.
  intros db. apply (lifecycle_touches_one_row db 7 4 2000 8). lia.
Defined.

(** X3: a table in which every row is stored under its own identifier
    and no row that counts as claimed carries a cancellation timestamp is
    such a table again after [claim] and after [cancel], whatever the
    outcome. *)
Theorem lifecycle_keeps_table_invariants
    (db : gmap Z Shift) (shiftId w now : Z) :
  keyed db ->
  claimed_is_live db ->
  (keyed (snd (claim shiftId w db)) /\
   claimed_is_live (snd (claim shiftId w db))) /\
  (keyed (snd (cancel now shiftId db)) /\
   claimed_is_live (snd (cancel now shiftId db))).
Proof.
  intros Hk Hl. split.
  - destruct (claim_cases db shiftId w)
      as [[_ ->] | [(s & _ & _ & ->) | (s & Hs & _ & ->)]]; cbn [snd];
      try (split; assumption).
    split; apply map_Forall_insert_2; try assumption.
    + cbn. apply (Hk shiftId s Hs).
    + cbn. reflexivity.
  - destruct (cancel_cases db now shiftId)
      as [[_ ->] | [(s & _ & _ & ->) | (s & Hs & _ & ->)]]; cbn [snd];
      try (split; assumption).
    split; apply map_Forall_insert_2; try assumption.
    + cbn. apply (Hk shiftId s Hs).
    + cbn. discriminate.
Qed.

Lemma lifecycle_keeps_table_invariants_witness :
  let db : gmap Z Shift := {[ 7 := mkShift 7 None (Some 1000) ]} in
  (keyed (snd (claim 7 4 db)) /\ claimed_is_live (snd (claim 7 4 db))) /\
  (keyed (snd (cancel 2000 7 db)) /\
   claimed_is_live (snd (cancel 2000 7 db))).
Proof.
  intros db. apply (lifecycle_keeps_table_invariants db 7 4 2000).
  - apply map_Forall_singleton. reflexivity.
  - apply map_Forall_singleton. cbn. discriminate.
Defined.

(** X4: after a [claim] with a worker other than 0 has gone through, a
    second [claim] on the same shift is rejected as already claimed, and
    the row keeps the first worker. *)
Theorem second_claim_rejected
    (db : gmap Z Shift) (shiftId w w2 : Z) (s : Shift) :
  db !! shiftId = Some s ->
  Js.truthy (workerId s) = false ->
  w <> 0 ->
  and_then (claim shiftId w) (claim shiftId w2) db =
    (Throw (BadRequestException shiftId AlreadyClaimed),
     <[shiftId := mkShift (id s) (Some w) None]> db).
Proof.
  intros Hs Ht Hw. unfold and_then, bind.
  rewrite (ShiftsLifecycle.claim_found_free db shiftId w s Hs Ht).
  apply (ShiftsLifecycle.claim_found_claimed _ shiftId w2
           (mkShift (id s) (Some w) None)).
  - apply lookup_insert_eq.
  - cbn. apply negb_true_iff, Z.eqb_neq, Hw.
Qed.

Lemma second_claim_rejected_witness :
  and_then (claim 7 3) (claim 7 4) {[ 7 := mkShift 7 None None ]} =
    (Throw (BadRequestException 7 AlreadyClaimed),
     <[7 := mkShift 7 (Some 3) None]> {[ 7 := mkShift 7 None None ]}).
Proof.
  apply (second_claim_rejected _ 7 3 4 (mkShift 7 None None)).
  - apply lookup_singleton_eq.
  - reflexivity.
  - lia.
Defined.

(** X5: after a [cancel] has gone through, a second [cancel] on the same
    shift is rejected as not claimed, and the row keeps the first
    cancellation timestamp. *)
Theorem second_cancel_rejected
    (db : gmap Z Shift) (shiftId now now2 : Z) (s : Shift) :
  db !! shiftId = Some s ->
  Js.truthy (workerId s) = true ->
  and_then (cancel now shiftId) (cancel now2 shiftId) db =
    (Throw (BadRequestException shiftId NotClaimed),
     <[shiftId := mkShift (id s) None (Some now)]> db).
Proof.
  intros Hs Ht. unfold and_then, bind.
  rewrite (ShiftsLifecycle.cancel_found_claimed db now shiftId s Hs Ht).
  apply (ShiftsLifecycle.cancel_found_free _ now2 shiftId
           (mkShift (id s) None (Some now))).
  - apply lookup_insert_eq.
  - reflexivity.
Qed.

Lemma second_cancel_rejected_witness :
  and_then (cancel 2000 7) (cancel 3000 7) {[ 7 := mkShift 7 (Some 3) None ]} =
    (Throw (BadRequestException 7 NotClaimed),
     <[7 := mkShift 7 None (Some 2000)]> {[ 7 := mkShift 7 (Some 3) None ]}).
Proof.
  apply (second_cancel_rejected _ 7 2000 3000 (mkShift 7 (Some 3) None)).
  - apply lookup_singleton_eq.
  - reflexivity.
Defined.

(** X6: on a shift that is in the table, exactly one of [claim] and
    [cancel] goes through, whatever the worker and the time. *)
Theorem exactly_one_transition_accepted
    (db : gmap Z Shift) (shiftId w now : Z) (s : Shift) :
  db !! shiftId = Some s ->
  returned (claim shiftId w db) = negb (returned (cancel now shiftId db)).
Proof.
  intros Hs. destruct (Js.truthy (workerId s)) eqn:Ht.
  - rewrite (ShiftsLifecycle.claim_found_claimed db shiftId w s Hs Ht).
    rewrite (ShiftsLifecycle.cancel_found_claimed db now shiftId s Hs Ht).
    reflexivity.
  - rewrite (ShiftsLifecycle.claim_found_free db shiftId w s Hs Ht).
    rewrite (ShiftsLifecycle.cancel_found_free db now shiftId s Hs Ht).
    reflexivity.
Qed.

Lemma exactly_one_transition_accepted_witness :
  returned (claim 7 4 {[ 7 := mkShift 7 (Some 0) None ]}) =
  negb (returned (cancel 2000 7 {[ 7 := mkShift 7 (Some 0) None ]})).
Proof.
  apply (exactly_one_transition_accepted _ 7 4 2000 (mkShift 7 (Some 0) None)).
  apply lookup_singleton_eq.
Defined.



(** X8: the record a call returns is the one [getById] reads back
    afterwards: after [claim] it carries the worker and no cancellation
    timestamp, after [cancel] no worker and the time of the call; and
    [getById] leaves the table as it is. *)
Theorem returned_record_is_stored
    (db db' : gmap Z Shift) (shiftId w now : Z) (r : Shift) :
  (claim shiftId w db = (Return r, db') ->
   getById shiftId db' = (Return (Some r), db') /\
   workerId r = Some w /\ cancelledAt r = None) /\
  (cancel now shiftId db = (Return r, db') ->
   getById shiftId db' = (Return (Some r), db') /\
   workerId r = None /\ cancelledAt r = Some now).
Proof.
  split; intros Hrun.
  - destruct (claim_cases db shiftId w)
      as [[_ H] | [(s & _ & _ & H) | (s & _ & _ & H)]];
      rewrite H in Hrun; inversion Hrun; subst.
    unfold getById, findUnique. rewrite lookup_insert_eq. auto.
  - destruct (cancel_cases db now shiftId)
      as [[_ H] | [(s & _ & _ & H) | (s & _ & _ & H)]];
      rewrite H in Hrun; inversion Hrun; subst.
    unfold getById, findUnique. rewrite lookup_insert_eq. auto.
Qed.

Lemma returned_record_is_stored_witness :
  let db : gmap Z Shift := {[ 7 := mkShift 7 None (Some 1000) ]} in
  let r := mkShift 7 (Some 4) None in
  getById 7 (<[7 := r]> db) = (Return (Some r), <[7 := r]> db) /\
  workerId r = Some 4 /\ cancelledAt r = None.
Proof.
  intros db r.
  apply (proj1 (returned_record_is_stored db (<[7 := r]> db) 7 4 2000 r)).
  apply (ShiftsLifecycle.claim_found_free db 7 4 (mkShift 7 None (Some 1000))).
  - apply lookup_singleton_eq.
  - reflexivity.
Defined.

End ShiftsTableFacts.

(** ** More on the page loops *)

Module TraversalFacts.

Import TopWorkplaces Specification Observations.

Ltac open_pass :=
  cbn [workplaces_pages shifts_pages negb];
  unfold bind at 1; unfold try_catch, bind at 1, axios_get.

Lemma shifts_pages_done {W} (api : Api W) fuel pg acc s :
  shifts_pages api fuel pg false acc s = Value acc s.
Proof. destruct fuel; reflexivity. Qed.

Lemma workplaces_pages_done {W} (api : Api W) fuel sh pg acc fetched s :
  workplaces_pages api fuel sh pg false acc fetched s = Value (acc, fetched) s.
Proof. destruct fuel; reflexivity. Qed.

Lemma seq_requests (mk : Z -> Request) (log : list Request) (k n : nat) :
  (log ++ [mk (Z.of_nat k)]) ++ map mk (map Z.of_nat (seq (S k) n)) =
  log ++ map mk (map Z.of_nat (seq k (S n))).
Proof. rewrite <- app_assoc. reflexivity. Qed.

Lemma shard_requests_app (sh : Z) (l1 l2 : list nat) :
  shard_requests sh (l1 ++ l2) =
  shard_requests sh l1 ++ shard_requests (sh + Z.of_nat (length l1)) l2.
Proof.
  revert sh. induction l1 as [|n l1 IH]; intros sh.
  - cbn. rewrite Z.add_0_r. reflexivity.
  - cbn [app shard_requests length]. rewrite IH, <- app_assoc.
    replace (sh + 1 + Z.of_nat (length l1)) with (sh + Z.of_nat (S (length l1)))
      by lia.
    reflexivity.
Qed.

Section AnyService.

Context {W : Type}.
Variable api : Api W.

(** *** One pass, by the answer it gets *)

Lemma shifts_pass (fuel : nat) (pg : Z) (acc : list Shift) (s : State W) :
  shifts_pages api (S fuel) pg true acc s =
  let s' := mkState (snd (get_shifts api (world s) (shifts_request pg)))
                    (issued s ++ [shifts_request pg]) in
  match fst (get_shifts api (world s) (shifts_request pg)) with
  | Rejected => Exited 1 s'
  | Resolved BodyNullish => Exited 1 s'
  | Resolved (BodyObject DataOther _) => Value acc s'
  | Resolved (BodyObject (DataArray []) _) => Value acc s'
  | Resolved (BodyObject (DataArray (x :: l)) LinksNullish) => Exited 1 s'
  | Resolved (BodyObject (DataArray (x :: l)) (LinksObject next)) =>
      shifts_pages api fuel (pg + 1) next (acc ++ x :: l) s'
  end.
Proof.
  open_pass. unfold shifts_request, limit10.
  destruct (get_shifts api (world s) _) as [[|[|[[|x l]|] [|next]]] w'];
    reflexivity.
Qed.

Lemma workplaces_pass (fuel : nat) (sh pg : Z) (acc : list Workplace)
    (fetched : bool) (s : State W) :
  workplaces_pages api (S fuel) sh pg true acc fetched s =
  let s' := mkState (snd (get_workplaces api (world s) (workplaces_request sh pg)))
                    (issued s ++ [workplaces_request sh pg]) in
  match fst (get_workplaces api (world s) (workplaces_request sh pg)) with
  | Rejected => Exited 1 s'
  | Resolved BodyNullish => Exited 1 s'
  | Resolved (BodyObject DataOther _) => Value (acc, fetched) s'
  | Resolved (BodyObject (DataArray []) _) => Value (acc, fetched) s'
  | Resolved (BodyObject (DataArray (x :: l)) LinksNullish) => Exited 1 s'
  | Resolved (BodyObject (DataArray (x :: l)) (LinksObject next)) =>
      workplaces_pages api fuel sh (pg + 1) next (acc ++ x :: l) true s'
  end.
Proof.
  open_pass. unfold workplaces_request, limit10.
  destruct (get_workplaces api (world s) _) as [[|[|[[|x l]|] [|next]]] w'];
    reflexivity.
Qed.

(** *** No exception leaves the loops *)







End AnyService.


(** *** The requests of a run, whatever the service does *)

Section Requests.

Context {W : Type}.
Variable api : Api W.

Lemma shifts_pages_requests (fuel : nat) :
  forall (k : nat) acc s s',
    final_state (shifts_pages api fuel (Z.of_nat k) true acc s) = Some s' ->
    exists n, (1 <= n <= fuel)%nat /\
      issued s' = issued s ++ map shifts_request (map Z.of_nat (seq k n)).
Proof.
  induction fuel as [|fuel IH]; intros k acc s s'; [discriminate |].
  rewrite shifts_pass. cbv zeta.
  destruct (get_shifts api (world s) _) as [a w']. cbn [fst snd].
  destruct a as [|[|[[|x l]|] [|[|]]]]; cbn [final_state];
    try rewrite shifts_pages_done; cbn [final_state];
    try (intros [= <-]; exists 1%nat; split; [lia | reflexivity]).
  replace (Z.of_nat k + 1) with (Z.of_nat (S k)) by lia.
  intros Hrun. apply IH in Hrun as (n & Hn & Hlog). cbn [issued] in Hlog.
  exists (S n). split; [lia |]. rewrite Hlog. apply seq_requests.
Qed.

Lemma workplaces_pages_requests (fuel : nat) :
  forall sh (k : nat) acc fetched s s',
    final_state (workplaces_pages api fuel sh (Z.of_nat k) true acc fetched s)
      = Some s' ->
    exists n, (1 <= n <= fuel)%nat /\
      issued s' =
      issued s ++ map (workplaces_request sh) (map Z.of_nat (seq k n)).
Proof.
  induction fuel as [|fuel IH]; intros sh k acc fetched s s'; [discriminate |].
  rewrite workplaces_pass. cbv zeta.
  destruct (get_workplaces api (world s) _) as [a w']. cbn [fst snd].
  destruct a as [|[|[[|x l]|] [|[|]]]]; cbn [final_state];
    try rewrite workplaces_pages_done; cbn [final_state];
    try (intros [= <-]; exists 1%nat; split; [lia | reflexivity]).
  replace (Z.of_nat k + 1) with (Z.of_nat (S k)) by lia.
  intros Hrun. apply IH in Hrun as (n & Hn & Hlog). cbn [issued] in Hlog.
  exists (S n). split; [lia |]. rewrite Hlog.
  apply (seq_requests (workplaces_request sh)).
Qed.

Lemma workplaces_shards_requests (fuel pageFuel : nat) :
  forall sh acc s s',
    final_state (workplaces_shards api fuel pageFuel sh acc s) = Some s' ->
    exists sizes, sizes <> [] /\ Forall (fun n => (1 <= n)%nat) sizes /\
      issued s' = issued s ++ shard_requests sh sizes.
Proof.
  induction fuel as [|fuel IH]; intros sh acc s s'; [discriminate |].
  cbn [workplaces_shards]. unfold bind at 1.
  pose proof (workplaces_pages_requests pageFuel sh 1 acc false s) as Hpages.
  change (Z.of_nat 1) with 1 in Hpages.
  assert (Hone : forall (n : nat) (s1 : State W),
            (1 <= n)%nat ->
            issued s1 =
              issued s ++ map (workplaces_request sh) (map Z.of_nat (seq 1 n)) ->
            exists sizes, sizes <> [] /\ Forall (fun m => (1 <= m)%nat) sizes /\
              issued s1 = issued s ++ shard_requests sh sizes).
  { intros n s1 Hn Hlog. exists [n]. split; [discriminate |].
    split; [repeat constructor; exact Hn |].
    cbn [shard_requests]. rewrite app_nil_r. exact Hlog. }
  destruct (workplaces_pages api pageFuel sh 1 true acc false s)
    as [[acc' fetched] s1 | s1 | code s1 |]; cbn [final_state fst snd] in *;
    [| intros [= <-]; destruct (Hpages s1 eq_refl) as (n & Hn & Hlog);
       apply (Hone n s1); [lia | exact Hlog] ..
     | discriminate ].
  destruct (Hpages s1 eq_refl) as (n & Hn & Hlog).
  destruct fetched; cbn [negb].
  - intros Hrun. apply IH in Hrun as (sizes & _ & Hall & Hrest).
    exists (n :: sizes). split; [discriminate |].
    split; [constructor; [lia | exact Hall] |].
    cbn [shard_requests]. rewrite Hrest, Hlog, <- app_assoc. reflexivity.
  - cbn [final_state]. intros [= <-]. apply (Hone n s1); [lia | exact Hlog].
Qed.

End Requests.

(** X10: whatever the service answers, the requests [fetchAllShifts] has
    sent when it ends are those for the pages 1, 2, ..., [n] of the shifts
    listing, in this order, each once and with page size 10, for some [n]
    from 1 up. *)
Theorem fetchAllShifts_asks_pages_in_turn
    {W : Type} (api : Api W) (fuel : nat) (s s' : State W) :
  final_state (fetchAllShifts api fuel s) = Some s' ->
  exists n, (1 <= n <= fuel)%nat /\
    issued s' = issued s ++ map shifts_request (page_indices n).
Proof. apply (shifts_pages_requests api fuel 1). Qed.

Lemma fetchAllShifts_asks_pages_in_turn_witness :
  exists n, (1 <= n <= 5)%nat /\
    [shifts_request 1; shifts_request 2] =
    [] ++ map shifts_request (page_indices n).
Proof.
  apply (fetchAllShifts_asks_pages_in_turn Scenarios.queued 5
           (mkState ([], Scenarios.not_an_array) [])
           (mkState ([], []) [shifts_request 1; shifts_request 2])).
  reflexivity.
Defined.

(** X11: whatever the service answers, the requests [fetchAllWorkplaces]
    has sent when it ends are those for shard 0, 1, ..., each from page 1
    on without a gap, for at least one shard and with page size 10. *)
Theorem fetchAllWorkplaces_asks_shards_in_turn
    {W : Type} (api : Api W) (fuel : nat) (s s' : State W) :
  final_state (fetchAllWorkplaces api fuel s) = Some s' ->
  exists sizes, sizes <> [] /\ Forall (fun n => (1 <= n)%nat) sizes /\
    issued s' = issued s ++ shard_requests 0 sizes.
Proof. apply (workplaces_shards_requests api fuel fuel 0 []). Qed.

Lemma fetchAllWorkplaces_asks_shards_in_turn_witness :
  exists sizes, sizes <> [] /\ Forall (fun n => (1 <= n)%nat) sizes /\
    [workplaces_request 0 1; workplaces_request 1 1] =
    [] ++ shard_requests 0 sizes.
Proof.
  apply (fetchAllWorkplaces_asks_shards_in_turn Scenarios.failing 3
           (mkState tt [])
           (mkState tt [workplaces_request 0 1; workplaces_request 1 1])).
  reflexivity.
Defined.

(** X14: whatever the service answers, the requests [getTopWorkplaces]
    has sent when it ends are those of the workplaces traversal followed
    by those for pages 1, ..., [n] of the shifts; shifts are asked for
    only when the workplaces traversal has returned. *)
Theorem getTopWorkplaces_asks_workplaces_then_shifts
    {W : Type} (api : Api W) (fuel : nat) (s s' : State W) :
  final_state (getTopWorkplaces api fuel s) = Some s' ->
  exists sizes n, sizes <> [] /\
    issued s' =
      issued s ++ shard_requests 0 sizes ++ map shifts_request (page_indices n) /\
    ((exists workplaces s1, fetchAllWorkplaces api fuel s = Value workplaces s1) \/
     n = 0%nat).
Proof.
  unfold getTopWorkplaces, bind at 1.
  pose proof (workplaces_shards_requests api fuel fuel 0 [] s) as Hwp.
  fold (fetchAllWorkplaces api fuel) in Hwp.
  destruct (fetchAllWorkplaces api fuel s) as [workplaces s1 | s1 | code s1 |];
    cbn [final_state] in *;
    [| intros [= <-]; destruct (Hwp s1 eq_refl) as (sizes & Hne & _ & Hlog);
       exists sizes, 0%nat; split; [exact Hne |];
       split; [cbn; rewrite app_nil_r; exact Hlog | right; reflexivity] ..
     | discriminate ].
  destruct (Hwp s1 eq_refl) as (sizes & Hne & _ & Hlog).
  unfold bind at 1.
  pose proof (shifts_pages_requests api fuel 1 [] s1) as Hsh.
  change (Z.of_nat 1) with 1 in Hsh. fold (fetchAllShifts api fuel) in Hsh.
  destruct (fetchAllShifts api fuel s1) as [ss s2 | s2 | code s2 |];
    cbn [final_state] in *; [| | | discriminate];
    intros [= <-]; destruct (Hsh s2 eq_refl) as (n & _ & Hlog2);
    exists sizes, n; (split; [exact Hne |]);
    (split; [| left; eauto]);
    rewrite Hlog2, Hlog, <- app_assoc; reflexivity.
Qed.

Lemma getTopWorkplaces_asks_workplaces_then_shifts_witness :
  exists sizes n, sizes <> [] /\
    [workplaces_request 0 1; workplaces_request 1 1] =
      [] ++ shard_requests 0 sizes ++ map shifts_request (page_indices n) /\
    ((exists workplaces s1,
        fetchAllWorkplaces Scenarios.failing 3 (mkState tt []) =
        Value workplaces s1) \/
     n = 0%nat).
Proof.
  apply (getTopWorkplaces_asks_workplaces_then_shifts Scenarios.failing 3
           (mkState tt [])
           (mkState tt [workplaces_request 0 1; workplaces_request 1 1])).
  reflexivity.
Defined.

(** *** Answers without items, whole runs, runs without end *)

Section WholeRuns.

Import Traversal.

Context {W : Type}.
Variable api : Api W.

Lemma no_items_pass_shifts fuel pg acc w log a w1 :
  get_shifts api w (shifts_request pg) = (a, w1) ->
  no_items a = true ->
  shifts_pages api (S fuel) pg true acc (mkState w log) =
  Value acc (mkState w1 (log ++ [shifts_request pg])).
Proof.
  intros Hget Ha. rewrite shifts_pass. cbn [world issued]. rewrite Hget.
  destruct a as [|[|[[|x l]|] links]]; try discriminate; reflexivity.
Qed.

Lemma no_items_pass_workplaces fuel sh pg acc fetched w log a w1 :
  get_workplaces api w (workplaces_request sh pg) = (a, w1) ->
  no_items a = true ->
  workplaces_pages api (S fuel) sh pg true acc fetched (mkState w log) =
  Value (acc, fetched) (mkState w1 (log ++ [workplaces_request sh pg])).
Proof.
  intros Hget Ha. rewrite workplaces_pass. cbn [world issued]. rewrite Hget.
  destruct a as [|[|[[|x l]|] links]]; try discriminate; reflexivity.
Qed.

Lemma shifts_no_items_end (pages : list (Page Shift)) :
  forallb (fun p => negb (stops p)) pages = true ->
  forall fuel pg acc w log w1 a,
    (length pages < fuel)%nat ->
    no_items a = true ->
    serves (get_shifts api) w
      (exchanges shifts_request pg pages ++
       [(shifts_request (pg + Z.of_nat (length pages)), a)]) w1 ->
    shifts_pages api fuel pg true acc (mkState w log) =
    Value (acc ++ all_items pages)
      (mkState w1
         (log ++ map fst (exchanges shifts_request pg pages) ++
          [shifts_request (pg + Z.of_nat (length pages))])).
Proof.
  induction pages as [|p rest IH];
    intros Hgo fuel pg acc w log w1 a Hfuel Ha Hserves;
    (destruct fuel as [|fuel]; [cbn in Hfuel; lia |]).
  - cbn in Hserves. destruct Hserves as (w2 & Hget & ->).
    cbn [length Z.of_nat] in *. rewrite Z.add_0_r in *.
    rewrite (no_items_pass_shifts fuel pg acc w log a w2 Hget Ha).
    unfold all_items. cbn. rewrite app_nil_r. reflexivity.
  - cbn [forallb] in Hgo. apply andb_true_iff in Hgo as [Hp Hgo].
    apply negb_true_iff in Hp.
    cbn [exchanges app serves] in Hserves.
    destruct Hserves as (w2 & Hget & Hrest).
    rewrite (shifts_pass_on api fuel pg acc w log p w2 Hget Hp).
    replace (pg + Z.of_nat (length (p :: rest)))
      with (pg + 1 + Z.of_nat (length rest)) in * by (cbn [length]; lia).
    rewrite (IH Hgo fuel (pg + 1) (acc ++ items p) w2 _ w1 a);
      [| cbn in Hfuel; lia | exact Ha | exact Hrest].
    rewrite all_items_cons. cbn [exchanges map fst].
    rewrite <- !app_assoc. reflexivity.
Qed.

(** The shards [visited] and then a shard whose first page has no items:
    the run of [fetchAllWorkplaces]. *)
Lemma workplaces_run_to_gap (visited : list (list (Page Workplace)))
    (a : AxiosResult Workplace) (fuel : nat) (w0 w1 : W) (log0 : list Request) :
  forallb shard_ok visited = true ->
  no_items a = true ->
  serves (get_workplaces api) w0
    (shard_exchanges 0 visited ++
     [(workplaces_request (Z.of_nat (length visited)) 1, a)]) w1 ->
  (length (shard_exchanges 0 visited) < fuel)%nat ->
  fetchAllWorkplaces api fuel (mkState w0 log0) =
    Value (all_items (concat visited))
      (mkState w1 (log0 ++ shard_requests 0 (map length visited ++ [1%nat]))).
Proof.
  intros Hok Ha Hserves Hfuel.
  apply serves_app in Hserves as (w2 & Hvisited & (w3 & Hget & ->)).
  destruct (shard_exchanges_room 0 visited Hok) as [Hn Hroom].
  unfold fetchAllWorkplaces.
  replace fuel with (length visited + S (fuel - length visited - 1))%nat at 1
    by lia.
  rewrite (workplaces_shards_prefix api visited Hok _ fuel 0 [] w0 log0 w2);
    [| eapply List.Forall_impl; [| exact Hroom]; cbn; intros; lia
     | exact Hvisited ].
  cbn [workplaces_shards]. unfold bind at 1. rewrite Z.add_0_l.
  destruct fuel as [|fuel]; [lia |].
  rewrite (no_items_pass_workplaces fuel _ 1 _ false w2 _ a w3 Hget Ha).
  cbn [fst snd negb]. unfold ret. do 2 f_equal.
  rewrite <- app_assoc. f_equal.
  rewrite map_fst_shard_exchanges, shard_requests_app, length_map, Z.add_0_l.
  reflexivity.
Qed.

End WholeRuns.

(** X12: an answer from which no items are read (an empty array, or a
    data field that is no array, with or without a links object) ends the
    listing in the ordinary way.  In [fetchAllShifts] the traversal
    returns the items of the pages before it; in [fetchAllWorkplaces],
    coming as the first page of a shard, it ends the traversal with the
    items of the shards before it. *)
Theorem answer_without_items_ends_listing
    {W : Type} (api : Api W) (s0 : State W) (w1 : W) (fuel : nat) :
  (forall (pages : list (Page Shift)) (a : AxiosResult Shift),
     forallb (fun p => negb (stops p)) pages = true ->
     no_items a = true ->
     serves (get_shifts api) (world s0)
       (exchanges shifts_request 1 pages ++
        [(shifts_request (1 + Z.of_nat (length pages)), a)]) w1 ->
     (length pages < fuel)%nat ->
     fetchAllShifts api fuel s0 =
       Value (all_items pages)
         (mkState w1
            (issued s0 ++
             map shifts_request (page_indices (S (length pages)))))) /\
  (forall (visited : list (list (Page Workplace))) (a : AxiosResult Workplace),
     forallb shard_ok visited = true ->
     no_items a = true ->
     serves (get_workplaces api) (world s0)
       (shard_exchanges 0 visited ++
        [(workplaces_request (Z.of_nat (length visited)) 1, a)]) w1 ->
     (length (shard_exchanges 0 visited) < fuel)%nat ->
     fetchAllWorkplaces api fuel s0 =
       Value (all_items (concat visited))
         (mkState w1
            (issued s0 ++ shard_requests 0 (map length visited ++ [1%nat])))).
Proof.
  destruct s0 as [w0 log0]. cbn [world issued]. split.
  - intros pages a Hgo Ha Hserves Hfuel. unfold fetchAllShifts.
    rewrite (shifts_no_items_end api pages Hgo fuel 1 [] w0 log0 w1 a
               Hfuel Ha Hserves).
    rewrite Traversal.map_fst_exchanges_1, Traversal.page_indices_S, map_app.
    reflexivity.
  - intros visited a Hok Ha Hserves Hfuel.
    apply (workplaces_run_to_gap api visited a fuel w0 w1 log0 Hok Ha Hserves Hfuel).
Qed.

Lemma answer_without_items_ends_listing_witness :
  fetchAllShifts Scenarios.queued 2
    (mkState ([], Scenarios.not_an_array) []) =
    Value (Scenarios.shifts_of 1 [1; 2])
      (mkState ([], []) [shifts_request 1; shifts_request 2]) /\
  fetchAllWorkplaces Scenarios.queued 2
    (mkState (Scenarios.no_array_shard, []) []) =
    Value [Scenarios.wpA]
      (mkState ([], []) [workplaces_request 0 1; workplaces_request 1 1]).
Proof.
  split.
  - apply (proj1 (answer_without_items_ends_listing Scenarios.queued
                    (mkState ([], Scenarios.not_an_array) []) ([], []) 2)
             [mkPage (Scenarios.shifts_of 1 [1; 2]) true]
             (Resolved (BodyObject DataOther LinksNullish))).
    + reflexivity.
    + reflexivity.
    + cbn. repeat (eexists; split; [reflexivity |]). reflexivity.
    + cbn. lia.
  - apply (proj2 (answer_without_items_ends_listing Scenarios.queued
                    (mkState (Scenarios.no_array_shard, []) []) ([], []) 2)
             [[mkPage [Scenarios.wpA] false]]
             (Resolved (BodyObject DataOther LinksNullish))).
    + reflexivity.
    + reflexivity.
    + cbn. repeat (eexists; split; [reflexivity |]). reflexivity.
    + cbn. lia.
Defined.

(** X13: when the workplaces listing is served shard by shard up to a
    shard with an empty first page, and the shifts listing page by page up
    to a page that stops, [getTopWorkplaces] returns the ranking of the
    workplaces and shifts collected, having asked for all the workplaces
    pages first and the shifts pages after them. *)
Theorem getTopWorkplaces_ranks_what_it_fetched
    {W : Type} (api : Api W) (s0 : State W) (w1 w2 : W)
    (visited : list (list (Page Workplace))) (gap : Page Workplace)
    (pages : list (Page Shift)) (fuel : nat) :
  forallb shard_ok visited = true ->
  is_empty gap = true ->
  existsb stops pages = true ->
  serves (get_workplaces api) (world s0)
    (shard_exchanges 0 visited ++
     [(workplaces_request (Z.of_nat (length visited)) 1, response gap)]) w1 ->
  serves (get_shifts api) w1
    (exchanges shifts_request 1 (upto_first_stop pages)) w2 ->
  (length (shard_exchanges 0 visited) < fuel)%nat ->
  (length (upto_first_stop pages) <= fuel)%nat ->
  getTopWorkplaces api fuel s0 =
    Value (rankWorkplaces (all_items (concat visited))
                          (all_items (upto_first_stop pages)))
      (mkState w2
         (issued s0 ++ shard_requests 0 (map length visited ++ [1%nat]) ++
          map shifts_request (page_indices (length (upto_first_stop pages))))).
Proof.
  intros Hok Hgap Hstop Hwp Hsh Hfuel1 Hfuel2.
  destruct s0 as [w0 log0]. cbn [world issued] in *.
  assert (Ha : no_items (response gap) = true).
  { unfold is_empty in Hgap. unfold response. cbn.
    destruct (items gap); [reflexivity | discriminate]. }
  unfold getTopWorkplaces, bind at 1.
  rewrite (workplaces_run_to_gap api visited (response gap) fuel w0 w1 log0
             Hok Ha Hwp Hfuel1).
  unfold bind at 1. unfold fetchAllShifts.
  rewrite (Traversal.shifts_run api (upto_first_stop pages)
             (Traversal.upto_first_stop_ends pages Hstop)
             fuel 1 [] w1 _ w2 Hfuel2 Hsh).
  rewrite Traversal.map_fst_exchanges_1, <- app_assoc. reflexivity.
Qed.

Lemma getTopWorkplaces_ranks_what_it_fetched_witness :
  getTopWorkplaces Scenarios.queued 2 (mkState Scenarios.report_run []) =
    Value [mkRow "A" 2; mkRow "C" 1]
      (mkState ([], [])
         [workplaces_request 0 1; workplaces_request 1 1; shifts_request 1]).
Proof.
  apply (getTopWorkplaces_ranks_what_it_fetched Scenarios.queued
           (mkState Scenarios.report_run [])
           ([], snd Scenarios.report_run) ([], [])
           [[mkPage [Scenarios.wpA; Scenarios.wpB; Scenarios.wpC] false]]
           (mkPage [] false)
           [mkPage (Scenarios.shifts_of 1 [1; 2] ++ Scenarios.shifts_of 3 [3])
                   false]
           2).
  - reflexivity.
  - reflexivity.
  - reflexivity.
  - cbn. repeat (eexists; split; [reflexivity |]). reflexivity.
  - cbn. repeat (eexists; split; [reflexivity |]). reflexivity.
  - cbn. lia.
  - cbn. lia.
Defined.

Lemma workplaces_pages_with_items {W} (api : Api W) :
  (forall w r, exists p w',
      get_workplaces api w r = (response p, w') /\ is_empty p = false) ->
  forall fuel sh pg acc fetched s,
    workplaces_pages api fuel sh pg true acc fetched s = OutOfFuel \/
    exists acc' s',
      workplaces_pages api fuel sh pg true acc fetched s = Value (acc', true) s'.
Proof.
  intros Hitems. induction fuel as [|fuel IH]; intros sh pg acc fetched s;
    [left; reflexivity |].
  rewrite workplaces_pass. cbv zeta.
  destruct (Hitems (world s) (workplaces_request sh pg)) as (p & w' & Hget & Hp).
  rewrite Hget. cbn [fst snd]. unfold response, is_empty in *.
  destruct (items p) as [|x l]; [discriminate |].
  destruct (hasNext p).
  - apply IH.
  - right. rewrite workplaces_pages_done. eauto.
Qed.

(** X15: neither loop has a bound of its own.  When every page of the
    shifts listing has items and a next link, [fetchAllShifts] uses up
    every budget; when every page of the workplaces listing has items,
    [fetchAllWorkplaces] does, going from shard to shard. *)
Theorem traversals_have_no_bound {W : Type} (api : Api W) :
  ((forall w r, exists p w',
       get_shifts api w r = (response p, w') /\ stops p = false) ->
   forall fuel s, fetchAllShifts api fuel s = OutOfFuel) /\
  ((forall w r, exists p w',
       get_workplaces api w r = (response p, w') /\ is_empty p = false) ->
   forall fuel s, fetchAllWorkplaces api fuel s = OutOfFuel).
Proof.
  split.
  - intros Hgo fuel s. apply (Traversal.shifts_pages_never_stops api Hgo).
  - intros Hitems fuel s. unfold fetchAllWorkplaces.
    generalize fuel at 2 as pageFuel. generalize 0 as sh.
    generalize (@nil Workplace) as acc. revert s.
    induction fuel as [|fuel IH]; intros s acc sh pageFuel; [reflexivity |].
    cbn [workplaces_shards]. unfold bind at 1.
    destruct (workplaces_pages_with_items api Hitems pageFuel sh 1 acc false s)
      as [-> | (acc' & s' & ->)]; [reflexivity |].
    cbn [fst snd negb]. apply IH.
Qed.

Lemma traversals_have_no_bound_witness :
  fetchAllShifts Scenarios.endless 5 (mkState tt []) = OutOfFuel /\
  fetchAllWorkplaces Scenarios.endless 5 (mkState tt []) = OutOfFuel.
Proof.
  split.
  - apply (proj1 (traversals_have_no_bound Scenarios.endless)).
    intros w r. eexists. eexists. split; reflexivity.
  - apply (proj2 (traversals_have_no_bound Scenarios.endless)).
    intros w r. eexists. eexists. split; reflexivity.
Defined.

End TraversalFacts.

(** ** More on the ranking *)

Module RankingFacts.

Import TopWorkplaces Specification Observations.

(** *** The counters *)

Lemma counters_positive (ss : list Shift) :
  forall m : gmap Z Z,
    (forall k v, m !! k = Some v -> 1 <= v) ->
    forall k v, fold_left count_shift ss m !! k = Some v -> 1 <= v.
Proof.
  induction ss as [|s ss IH]; intros m Hm k v; cbn [fold_left]; [apply Hm |].
  apply IH. intros j u. unfold count_shift.
  destruct (Js.truthy (workplaceId s)); [| apply Hm].
  destruct (workplaceId s) as [i|]; [| apply Hm].
  destruct (Z.eq_dec i j) as [-> | Hne].
  - rewrite lookup_insert_eq. intros [= <-].
    destruct (m !! j) as [u|] eqn:Hj; cbn [or_zero]; [| lia].
    specialize (Hm j u Hj). unfold Js.truthy_num.
    destruct (Z.eqb_spec u 0); cbn [negb]; lia.
  - rewrite lookup_insert_ne by exact Hne. apply Hm.
Qed.

Lemma total_insert (m : gmap Z Z) (k v : Z) :
  total (<[k := v]> m) = total m - default 0 (m !! k) + v.
Proof.
  unfold total.
  assert (Hcomm : forall z1 z2 y : Z, z1 + (z2 + y) = z2 + (z1 + y))
    by (intros; lia).
  destruct (m !! k) as [u|] eqn:Hk; cbn [default from_option]; unfold id.
  - rewrite <- insert_delete_eq.
    rewrite map_fold_insert_L;
      [| intros; apply Hcomm | apply lookup_delete_eq].
    rewrite (map_fold_delete_L _ 0 k u m); [lia | intros; apply Hcomm | exact Hk].
  - rewrite map_fold_insert_L; [lia | intros; apply Hcomm | exact Hk].
Qed.

Lemma total_count_shift (m : gmap Z Z) (s : Shift) :
  (forall k v, m !! k = Some v -> 1 <= v) ->
  total (count_shift m s) = total m + (if counted s then 1 else 0).
Proof.
  intros Hm. unfold count_shift, counted.
  destruct (workplaceId s) as [i|]; cbn [Js.truthy]; [| lia].
  destruct (negb (i =? 0)); [| lia].
  rewrite total_insert.
  destruct (m !! i) as [u|] eqn:Hi; cbn [default from_option or_zero];
    unfold id; [| lia].
  specialize (Hm i u Hi). unfold Js.truthy_num.
  destruct (Z.eqb_spec u 0); cbn [negb]; lia.
Qed.

Lemma total_fold (ss : list Shift) :
  forall m : gmap Z Z,
    (forall k v, m !! k = Some v -> 1 <= v) ->
    total (fold_left count_shift ss m) =
    total m + Z.of_nat (length (List.filter counted ss)).
Proof.
  induction ss as [|s ss IH]; intros m Hm; cbn [fold_left List.filter].
  - cbn. lia.
  - rewrite IH.
    + rewrite (total_count_shift m s Hm).
      destruct (counted s); cbn [length]; lia.
    + intros k v. apply (counters_positive [s] m Hm k v).
Qed.

Lemma no_reference_to_zero (ss : list Shift) : count_references 0 ss = 0.
Proof.
  unfold count_references.
  replace (List.filter (references 0) ss) with (@nil Shift); [reflexivity |].
  induction ss as [|s ss IH]; [reflexivity |]. cbn [List.filter].
  assert (Hs : references 0 s = false).
  { unfold references. destruct (workplaceId s) as [j|]; [| reflexivity].
    destruct (Z.eqb_spec j 0); reflexivity. }
  rewrite Hs. exact IH.
Qed.

(** X20: after the [forEach], the map of counters holds, for every
    identifier that some shift refers to by a reference other than null
    and 0, the number of those shifts, and nothing else: no entry for the
    identifier 0, no counter below 1; and the counters add up to the
    number of shifts whose reference is not null and not 0. *)
Theorem shiftCounts_exact (ss : list Shift) (k : Z) :
  shiftCounts ss !! k =
    (if count_references k ss =? 0 then None
     else Some (count_references k ss)) /\
  shiftCounts ss !! 0 = None /\
  total (shiftCounts ss) = Z.of_nat (length (List.filter counted ss)).
Proof.
  assert (Hpos : forall j v, shiftCounts ss !! j = Some v -> 1 <= v).
  { intros j v. apply (counters_positive ss ∅). intros i u.
    rewrite lookup_empty. discriminate. }
  assert (Hexact : forall j,
            shiftCounts ss !! j =
            (if count_references j ss =? 0 then None
             else Some (count_references j ss))).
  { intros j. pose proof (Ranking.shiftCounts_spec ss j) as Hspec.
    destruct (shiftCounts ss !! j) as [v|] eqn:Hj; cbn [or_zero] in Hspec.
    - specialize (Hpos j v Hj). unfold Js.truthy_num in Hspec.
      destruct (Z.eqb_spec v 0); cbn [negb] in Hspec; [lia |].
      rewrite <- Hspec. destruct (Z.eqb_spec v 0); [lia | reflexivity].
    - rewrite <- Hspec. reflexivity. }
  split; [apply Hexact |]. split.
  - rewrite Hexact, no_reference_to_zero. reflexivity.
  - unfold shiftCounts. rewrite total_fold.
    + unfold total. rewrite map_fold_empty. lia.
    + intros i u. rewrite lookup_empty. discriminate.
Qed.

(** *** The result as a function of the counts *)

Lemma rank_ext (workplaces : list Workplace) (ss ss' : list Shift) :
  (forall wp, In wp (activeWorkplaces workplaces) ->
     count_references (wp_id wp) ss = count_references (wp_id wp) ss') ->
  rankWorkplaces workplaces ss = rankWorkplaces workplaces ss'.
Proof.
  intros Hsame. unfold rankWorkplaces.
  rewrite !Ranking.workplacesWithShifts_spec.
  do 2 f_equal. apply map_ext_in. intros wp Hwp.
  unfold report, shift_count. rewrite (Hsame wp Hwp). reflexivity.
Qed.

Lemma count_references_perm (k : Z) (ss ss' : list Shift) :
  Permutation ss ss' -> count_references k ss = count_references k ss'.
Proof.
  intros Hperm. induction Hperm as [| s l l' _ IH | s t l | l l' l'' _ IH1 _ IH2].
  - reflexivity.
  - rewrite !Ranking.count_references_cons, IH. reflexivity.
  - rewrite !Ranking.count_references_cons. lia.
  - rewrite IH1. exact IH2.
Qed.

(** X16: the result does not depend on the order in which the shifts
    were fetched. *)
Theorem ranking_ignores_shift_order
    (workplaces : list Workplace) (ss ss' : list Shift) :
  Permutation ss ss' ->
  rankWorkplaces workplaces ss = rankWorkplaces workplaces ss'.
Proof.
  intros Hperm. apply rank_ext. intros wp _.
  apply count_references_perm, Hperm.
Qed.

Lemma ranking_ignores_shift_order_witness :
  rankWorkplaces [Scenarios.wpA; Scenarios.wpB; Scenarios.wpC]
    [mkShift 1 (Some 1); mkShift 2 (Some 3); mkShift 3 (Some 1)] =
  rankWorkplaces [Scenarios.wpA; Scenarios.wpB; Scenarios.wpC]
    [mkShift 2 (Some 3); mkShift 1 (Some 1); mkShift 3 (Some 1)].
Proof.
  apply ranking_ignores_shift_order. apply perm_swap.
Defined.

(** X17: shifts that refer to no active workplace (their reference is
    null, 0, the identifier of an inactive workplace or of none) do not
    change the result: it is the result for the other shifts alone. *)
Theorem ranking_ignores_other_shifts
    (workplaces : list Workplace) (ss : list Shift) :
  rankWorkplaces workplaces ss =
  rankWorkplaces workplaces (List.filter (relevant workplaces) ss).
Proof.
  apply rank_ext. intros wp Hwp. unfold count_references. do 2 f_equal.
  induction ss as [|s ss IH]; [reflexivity |]. cbn [List.filter].
  destruct (references (wp_id wp) s) eqn:Hs.
  - assert (Hrel : relevant workplaces s = true).
    { unfold relevant. apply existsb_exists. exists wp. split; assumption. }
    rewrite Hrel. cbn [List.filter]. rewrite Hs, IH. reflexivity.
  - destruct (relevant workplaces s); cbn [List.filter]; [rewrite Hs |];
      exact IH.
Qed.

(** *** The order of the result *)

Lemma StronglySorted_app_between {A} (R : A -> A -> Prop) (l1 l2 : list A) :
  StronglySorted R (l1 ++ l2) ->
  forall a b, In a l1 -> In b l2 -> R a b.
Proof.
  induction l1 as [|x l1 IH]; intros Hs a b Ha Hb; [destruct Ha |].
  cbn [app] in Hs. inversion Hs as [|? ? Hrest Hall]; subst.
  destruct Ha as [-> | Ha].
  - rewrite List.Forall_forall in Hall. apply Hall.
    apply List.in_or_app. right. exact Hb.
  - apply (IH Hrest a b Ha Hb).
Qed.

Lemma array_sort_all_tied {A} (key : A -> Z) (comparefn : A -> A -> Z)
    (c : Z) (l : list A) :
  (forall a b, comparefn a b = key b - key a) ->
  (forall a, In a l -> key a = c) ->
  array_sort comparefn l = l.
Proof.
  intros Hcmp. induction l as [|x l IH]; intros Hkey; [reflexivity |].
  cbn [array_sort fold_right]. fold (array_sort comparefn l).
  rewrite IH by (intros a Ha; apply Hkey; right; exact Ha).
  destruct l as [|y l]; [reflexivity |]. cbn [insert_sorted].
  rewrite Hcmp, (Hkey x), (Hkey y);
    [| right; left; reflexivity | left; reflexivity].
  rewrite Z.sub_diag. reflexivity.
Qed.

(** X18: the result holds the largest counts.  The rows that are left
    out, together with the rows of the result, are the rows of the active
    workplaces; no row left out has a larger count than a row of the
    result; and the result has three rows, or as many as there are active
    workplaces when these are fewer. *)
Theorem ranking_takes_the_largest
    (workplaces : list Workplace) (ss : list Shift) :
  exists rest,
    Permutation (rankWorkplaces workplaces ss ++ rest)
                (workplacesWithShifts workplaces ss) /\
    (forall row row', In row (rankWorkplaces workplaces ss) -> In row' rest ->
       shifts row' <= shifts row) /\
    length (rankWorkplaces workplaces ss) =
      Nat.min 3 (length (activeWorkplaces workplaces)).
Proof.
  exists (skipn 3 (array_sort by_shifts_desc (workplacesWithShifts workplaces ss))).
  unfold rankWorkplaces, slice0. split; [| split].
  - rewrite firstn_skipn. apply Ranking.array_sort_perm.
  - apply (StronglySorted_app_between (desc shifts)).
    rewrite firstn_skipn.
    apply (Ranking.array_sort_Sorted shifts by_shifts_desc). reflexivity.
  - rewrite length_firstn.
    rewrite (Permutation_length
               (Ranking.array_sort_perm by_shifts_desc
                  (workplacesWithShifts workplaces ss))).
    unfold workplacesWithShifts. rewrite length_map. reflexivity.
Qed.

(** X19: when all active workplaces have the same number of shifts (so
    when there are no shifts at all), the result is the first three
    active workplaces in the order of the input, each with that count. *)
Theorem all_tied_keeps_input_order
    (workplaces : list Workplace) (ss : list Shift) (c : Z) :
  (forall wp, In wp (activeWorkplaces workplaces) ->
     count_references (wp_id wp) ss = c) ->
  rankWorkplaces workplaces ss =
  map (fun wp => {| name := wp_name wp; shifts := c |})
      (firstn 3 (activeWorkplaces workplaces)).
Proof.
  intros Htied. unfold rankWorkplaces, slice0.
  rewrite Ranking.workplacesWithShifts_spec.
  rewrite (array_sort_all_tied shifts by_shifts_desc c).
  - rewrite <- firstn_map. f_equal. apply map_ext_in. intros wp Hwp.
    unfold report, shift_count. rewrite (Htied wp Hwp). reflexivity.
  - reflexivity.
  - intros row Hrow. apply List.in_map_iff in Hrow as (wp & <- & Hwp).
    cbn. apply (Htied wp Hwp).
Qed.

Lemma all_tied_keeps_input_order_witness :
  rankWorkplaces
    [Scenarios.wpD; Scenarios.wpB; Scenarios.wpC; Scenarios.wpA;
     mkWorkplace 5 "E" 0] [] =
  [mkRow "D" 0; mkRow "C" 0; mkRow "A" 0].
Proof.
  apply (all_tied_keeps_input_order
           [Scenarios.wpD; Scenarios.wpB; Scenarios.wpC; Scenarios.wpA;
            mkWorkplace 5 "E" 0] [] 0).
  intros wp _. reflexivity.
Defined.

End RankingFacts.
